(** * InventoryProjectCPP: the storage grid, the checkout ledger and the
    Inventory operations, embedded from Position.h, Item.h, Inventory.h and
    Inventory.cpp. *)

From Stdlib Require Import ZArith String Ascii List Lia.
From stdpp Require Import base option list gmap strings pretty sorting.

Local Open Scope string_scope.
Local Open Scope Z_scope.

(** ** Position.h *)

Record Position := mkPosition { row : Z; col : Z }.

Definition getRow (p : Position) : Z := row p.
Definition getCol (p : Position) : Z := col p.

#[global] Instance Position_eq_dec : EqDecision Position.
Proof. solve_decision. Defined.

(** [Position::operator==] *)
Definition Position_eqb (a b : Position) : bool :=
  (row a =? row b) && (col a =? col b).

(** [Position::isValid]: 3 shelves, 15 compartments per shelf. *)
Definition isValid (p : Position) : bool :=
  (row p >=? 0) && (row p <? 3) && (col p >=? 0) && (col p <? 15).

(** ** Item.h *)

(** The base class [Item]: its three data members.  The [int] id is a [Z];
    no operation does arithmetic on it. *)
Record Item := mkItem {
  item_name : string;
  item_description : string;
  item_id : Z
}.

Record Book := mkBook {
  book_base : Item;
  book_title : string;
  book_author : string;
  book_copyrightDate : string
}.

Record Magazine := mkMagazine {
  magazine_base : Item;
  magazine_edition : string;
  magazine_title : string
}.

Record Movie := mkMovie {
  movie_base : Item;
  movie_title : string;
  movie_director : string;
  movie_mainActors : list string
}.

(** An object reached through [const Item&] or [unique_ptr<Item>]: the tag is
    its dynamic type. *)
Inductive ItemObj :=
| IsItem (x : Item)
| IsBook (b : Book)
| IsMagazine (m : Magazine)
| IsMovie (m : Movie).

#[global] Instance Item_eq_dec : EqDecision Item.
Proof. solve_decision. Defined.
#[global] Instance Book_eq_dec : EqDecision Book.
Proof. solve_decision. Defined.
#[global] Instance Magazine_eq_dec : EqDecision Magazine.
Proof. solve_decision. Defined.
#[global] Instance Movie_eq_dec : EqDecision Movie.
Proof. solve_decision. Defined.
#[global] Instance ItemObj_eq_dec : EqDecision ItemObj.
Proof. solve_decision. Defined.

(** The [Item] subobject of an object. *)
Definition baseOf (o : ItemObj) : Item :=
  match o with
  | IsItem x => x
  | IsBook b => book_base b
  | IsMagazine m => magazine_base m
  | IsMovie m => movie_base m
  end.

Definition getID (o : ItemObj) : Z := item_id (baseOf o).
Definition getName (o : ItemObj) : string := item_name (baseOf o).
Definition getDescription (o : ItemObj) : string := item_description (baseOf o).

(** [Item(const Item&)], the copy constructor that [make_unique<Item>(item)]
    runs: the new object has dynamic type [Item] and the three base members
    of its argument. *)
Definition Item_copy (o : ItemObj) : ItemObj := IsItem (baseOf o).

(** [std::endl] as the text it adds to the stream. *)
Definition endl : string := String (ascii_of_nat 10) EmptyString.

(** [Item::print] *)
Definition Item_print (x : Item) : string :=
  "ID: " +:+ pretty (item_id x) +:+ endl +:+
  "Name: " +:+ item_name x +:+ endl +:+
  "Description: " +:+ item_description x +:+ endl.

(** [Book::print] *)
Definition Book_print (b : Book) : string :=
  Item_print (book_base b) +:+
  "Title: " +:+ book_title b +:+ endl +:+
  "Author: " +:+ book_author b +:+ endl +:+
  "Copyright Date: " +:+ book_copyrightDate b +:+ endl.

(** [Magazine::print] *)
Definition Magazine_print (m : Magazine) : string :=
  Item_print (magazine_base m) +:+
  "Edition: " +:+ magazine_edition m +:+ endl +:+
  "Title: " +:+ magazine_title m +:+ endl.

(** [Movie::print] *)
Definition Movie_print (m : Movie) : string :=
  Item_print (movie_base m) +:+
  "Title: " +:+ movie_title m +:+ endl +:+
  "Director: " +:+ movie_director m +:+ endl +:+
  "Main Actors: " +:+ endl +:+
  fold_right (fun actor acc => actor +:+ endl +:+ acc) "" (movie_mainActors m).

(** [operator<<(ostream&, const Item&)]: [print] is not virtual, so through an
    [Item&] it is [Item::print] whatever the dynamic type. *)
Definition Item_shl (o : ItemObj) : string := Item_print (baseOf o).

(** ** Inventory.h *)

(** The [unique_ptr<Item>] of a record is never null: the one place that
    builds a [CheckoutInfo] moves an occupied compartment into it, so the
    field is the object itself. *)
Record CheckoutInfo := mkCheckoutInfo {
  checkedOutBy : string;
  dueDate : string;
  originalPosition : Position;
  item : ItemObj
}.

(** [shelves] is the 3 x 15 array of [unique_ptr<Item>] ([None] is [nullptr]);
    [checkedOutItems] is the [map<string, CheckoutInfo>]. *)
Record Inventory := mkInventory {
  shelves : list (list (option ItemObj));
  checkedOutItems : gmap string CheckoutInfo
}.

(** The two exception classes the operations throw, with their message. *)
Inductive exn :=
| out_of_range (what : string)
| runtime_error (what : string).

(** A member function: it runs on the object's state and either returns or
    throws; the state it leaves is the state at the [return] or the [throw]. *)
Definition M (A : Type) : Type := Inventory -> (exn + A) * Inventory.

Definition ret {A} (a : A) : M A := fun s => (inr a, s).
Definition throw {A} (e : exn) : M A := fun s => (inl e, s).
Definition bind {A B} (c : M A) (k : A -> M B) : M B :=
  fun s => match c s with
           | (inr a, s') => k a s'
           | (inl e, s') => (inl e, s')
           end.
Definition get_shelves : M (list (list (option ItemObj))) :=
  fun s => (inr (shelves s), s).
Definition get_checkedOutItems : M (gmap string CheckoutInfo) :=
  fun s => (inr (checkedOutItems s), s).
Definition put_shelves (g : list (list (option ItemObj))) : M unit :=
  fun s => (inr tt, mkInventory g (checkedOutItems s)).
Definition put_checkedOutItems (m : gmap string CheckoutInfo) : M unit :=
  fun s => (inr tt, mkInventory (shelves s) m).

Declare Scope inv_scope.
Delimit Scope inv_scope with inv.
Notation "'call' x ':=' c 'in' k" := (bind c (fun x => k))
  (at level 10, x name, c at level 200, k at level 200,
   format "'[v' 'call'  x  ':='  c  'in' '/' k ']'") : inv_scope.

(** [shelves[r][c]].  The source indexes the array only with positions that
    passed [isValid], with the loop indices of [checkoutItem], or with the
    position a checkout record stored; [wf] below says that all of these lie
    inside the grid, where [slot] and [set_slot] are the array read and
    write. *)
Definition slot (g : list (list (option ItemObj))) (r c : Z) : option ItemObj :=
  match g !! Z.to_nat r with
  | Some shelf => match shelf !! Z.to_nat c with
                  | Some p => p
                  | None => None
                  end
  | None => None
  end.

(** [shelves[r][c] = v] *)
Definition set_slot (g : list (list (option ItemObj))) (r c : Z)
    (v : option ItemObj) : list (list (option ItemObj)) :=
  alter (fun shelf => <[Z.to_nat c := v]> shelf) (Z.to_nat r) g.

(** ** Inventory.cpp *)

(** [Inventory::Inventory]: every compartment is [nullptr], the map is empty. *)
Definition Inventory_new : Inventory :=
  mkInventory (replicate 3 (replicate 15 None)) ∅.

(** [Inventory::getStringId]: [std::to_string] of the [int], its decimal
    digits after a minus sign when it is negative. *)
Definition getStringId (id : Z) : string := pretty id.

(** [Inventory::isCompartmentEmpty] *)
Definition isCompartmentEmpty (pos : Position) : M bool :=
  (if negb (isValid pos) then throw (out_of_range "Position is out of range")
   else call g := get_shelves in
        ret (match slot g (getRow pos) (getCol pos) with
             | None => true
             | Some _ => false
             end))%inv.

(** [Inventory::isItemCheckedOut] *)
Definition isItemCheckedOut (itemId : string) : M bool :=
  (call m := get_checkedOutItems in
   ret (bool_decide (is_Some (m !! itemId))))%inv.

(** [Inventory::addItem] *)
Definition addItem (position : Position) (itm : ItemObj) : M unit :=
  (if negb (isValid position)
   then throw (out_of_range "Position is out of valid range")
   else call e := isCompartmentEmpty position in
        if negb e then throw (runtime_error "Compartment is not empty")
        else call g := get_shelves in
             put_shelves (set_slot g (getRow position) (getCol position)
                                   (Some (Item_copy itm))))%inv.

(** The inner [for] of [checkoutItem]: the compartments [js] of shelf [i] in
    turn, stopping at the first one that is occupied and whose item's id
    string is [itemId]. *)
Fixpoint scanCompartments (g : list (list (option ItemObj))) (itemId : string)
    (i : Z) (js : list Z) : option (Position * ItemObj) :=
  match js with
  | [] => None
  | j :: js' =>
      match slot g i j with
      | Some it =>
          if String.eqb (getStringId (getID it)) itemId
          then Some (mkPosition i j, it)
          else scanCompartments g itemId i js'
      | None => scanCompartments g itemId i js'
      end
  end.

(** The outer [for]: the shelves [rows] in turn, each with compartments
    0 .. 14. *)
Fixpoint scanShelves (g : list (list (option ItemObj))) (itemId : string)
    (rows : list Z) : option (Position * ItemObj) :=
  match rows with
  | [] => None
  | i :: rows' =>
      match scanCompartments g itemId i (seqZ 0 15) with
      | Some found => Some found
      | None => scanShelves g itemId rows'
      end
  end.

(** [checkedOutItems.emplace(key, info)]: nothing is inserted when the key is
    already there. *)
Definition emplace (key : string) (info : CheckoutInfo)
    (m : gmap string CheckoutInfo) : gmap string CheckoutInfo :=
  match m !! key with
  | Some _ => m
  | None => <[key := info]> m
  end.

(** [Inventory::checkoutItem].  [due] is the text that lines 155-161 obtain
    from the C library ([time], [localtime], [tm_mday += 30], [mktime],
    [put_time] with "%Y-%m-%d") at the moment of the call.  The pointer that
    is returned is modelled by the object it points to.  Building the
    [CheckoutInfo] moves out of [shelves[i][j]], so the compartment is
    [nullptr] afterwards whether or not [emplace] inserts. *)
Definition checkoutItem (due : string) (itemId checkOutBy : string) : M ItemObj :=
  (call g := get_shelves in
   match scanShelves g itemId (seqZ 0 3) with
   | Some (pos, it) =>
       call m := get_checkedOutItems in
       call _ := put_shelves (set_slot g (getRow pos) (getCol pos) None) in
       call _ := put_checkedOutItems
                   (emplace itemId (mkCheckoutInfo checkOutBy due pos it) m) in
       ret it
   | None => throw (runtime_error ("Item with ID " +:+ itemId +:+ " not found"))
   end)%inv.

(** [Inventory::checkinItem] *)
Definition checkinItem (itm : ItemObj) : M unit :=
  (let itemId := getStringId (getID itm) in
   call m := get_checkedOutItems in
   match m !! itemId with
   | None => throw (runtime_error "Item is not checked out")
   | Some info =>
       let pos := originalPosition info in
       call g := get_shelves in
       call _ := put_shelves (set_slot g (getRow pos) (getCol pos)
                                       (Some (item info))) in
       put_checkedOutItems (delete itemId m)
   end)%inv.

(** [Inventory::swapItems]; [||] evaluates its right operand only when the
    left one is false. *)
Definition swapItems (pos1 pos2 : Position) : M unit :=
  (if negb (isValid pos1) || negb (isValid pos2)
   then throw (out_of_range "Position is out of valid range")
   else
     call e1 := isCompartmentEmpty pos1 in
     call e := (if e1 then ret true else isCompartmentEmpty pos2) in
     if e
     then throw (runtime_error "Cannot swap: one or both compartments are empty")
     else
       call g := get_shelves in
       let a := slot g (getRow pos1) (getCol pos1) in
       let b := slot g (getRow pos2) (getCol pos2) in
       put_shelves (set_slot (set_slot g (getRow pos1) (getCol pos1) b)
                             (getRow pos2) (getCol pos2) a))%inv.

(** ** Sequences of calls *)

Inductive Op :=
| AddItem (position : Position) (itm : ItemObj)
| CheckoutItem (due itemId checkOutBy : string)
| CheckinItem (itm : ItemObj)
| SwapItems (pos1 pos2 : Position).

(** One call; [None] when it throws. *)
Definition step (o : Op) (s : Inventory) : option Inventory :=
  match o with
  | AddItem p x => match addItem p x s with (inr _, s') => Some s' | _ => None end
  | CheckoutItem d k w =>
      match checkoutItem d k w s with (inr _, s') => Some s' | _ => None end
  | CheckinItem x => match checkinItem x s with (inr _, s') => Some s' | _ => None end
  | SwapItems p q => match swapItems p q s with (inr _, s') => Some s' | _ => None end
  end.

(** A sequence of calls, all of which succeed. *)
Fixpoint run (ops : list Op) (s : Inventory) : option Inventory :=
  match ops with
  | [] => Some s
  | o :: ops' => match step o s with
                 | Some s' => run ops' s'
                 | None => None
                 end
  end.

(** The id strings of the items on the shelves and those of the items held by
    the checkout records. *)
Definition shelfIds (s : Inventory) : list Z :=
  omap (fun c => getID <$> c) (concat (shelves s)).
Definition ledgerIds (s : Inventory) : list Z :=
  (fun kv => getID (item (snd kv))) <$> map_to_list (checkedOutItems s).

Definition onShelf (i : Z) (s : Inventory) : bool := bool_decide (i ∈ shelfIds s).
Definition inLedger (i : Z) (s : Inventory) : bool := bool_decide (i ∈ ledgerIds s).


(** The 3 x 15 shape of [shelves], and every checkout record remembers a
    position inside the grid. *)
Definition wfShelves (g : list (list (option ItemObj))) : bool :=
  (length g =? 3)%nat && forallb (fun shelf => (length shelf =? 15)%nat) g.

Definition wf (s : Inventory) : bool :=
  wfShelves (shelves s) &&
  bool_decide (map_Forall (fun _ info => isValid (originalPosition info) = true)
                          (checkedOutItems s)).

(** Row-major rank of a position: shelf 0 compartments 0 .. 14, then shelf 1,
    then shelf 2. *)
Definition rowMajor (p : Position) : Z := 15 * row p + col p.

(** The compartment at [p] is occupied by an item whose id string is
    [itemId]: the test of line 153. *)
Definition matchesAt (g : list (list (option ItemObj))) (itemId : string)
    (p : Position) : bool :=
  match slot g (row p) (col p) with
  | Some it => String.eqb (getStringId (getID it)) itemId
  | None => false
  end.

(** The stand-in that main.cpp builds to check an item in:
    [Item dummyItem("", "", id)]. *)
Definition dummyItem (i : Z) : ItemObj := IsItem (mkItem "" "" i).

(** The object [x] is owned by a compartment, or by a checkout record. *)
Definition itemOnShelf (x : ItemObj) (s : Inventory) : bool :=
  bool_decide (Some x ∈ concat (shelves s)).
Definition itemInLedger (x : ItemObj) (s : Inventory) : bool :=
  bool_decide (x ∈ (fun kv => item (snd kv)) <$> map_to_list (checkedOutItems s)).

(** Sample data for the concrete runs below. *)
Definition sampleBook : Book :=
  mkBook (mkItem "Dune" "paperback" 1000) "Dune" "Frank Herbert" "1965".
Definition item1 : ItemObj := IsItem (mkItem "atlas" "maps" 1).
Definition item2 : ItemObj := IsItem (mkItem "globe" "desk globe" 2).
Definition item7 : ItemObj := IsItem (mkItem "first" "seventh, first copy" 7).
Definition item7' : ItemObj := IsItem (mkItem "second" "seventh, second copy" 7).
Definition p00 : Position := mkPosition 0 0.
Definition p01 : Position := mkPosition 0 1.
Definition p214 : Position := mkPosition 2 14.

(** A state with id 7 checked out from (0,0), and one with two items on
    shelf 0. *)
Definition sevenOut : Inventory :=
  snd (checkoutItem "2025-06-04" "7" "Alice" (snd (addItem p00 item7 Inventory_new))).
Definition twoOnShelf : Inventory :=
  snd (addItem p01 item2 (snd (addItem p00 item1 Inventory_new))).

(** The calls of a caller that keeps identities unique, as the counter of
    main.cpp does: an item is added only while no compartment and no checkout
    record holds its id. *)
Definition freshId (o : Op) (s : Inventory) : bool :=
  match o with
  | AddItem _ x => negb (onShelf (getID x) s) && negb (inLedger (getID x) s)
  | _ => true
  end.

Fixpoint runUnique (ops : list Op) (s : Inventory) : option Inventory :=
  match ops with
  | [] => Some s
  | o :: ops' =>
      if freshId o s
      then match step o s with
           | Some s' => runUnique ops' s'
           | None => None
           end
      else None
  end.

(** Id [i] is held by the compartment at the valid position [p]; id [i] is
    held by the checkout record under key [k]. *)
Definition shelfHolds (s : Inventory) (i : Z) (p : Position) : Prop :=
  isValid p = true /\
  exists a, slot (shelves s) (row p) (col p) = Some a /\ getID a = i.
Definition ledgerHolds (s : Inventory) (i : Z) (k : string) : Prop :=
  exists info, checkedOutItems s !! k = Some info /\ getID (item info) = i.

(** Exclusive ownership of identities: an id is in at most one compartment,
    a record is filed under the id string of its item, and no id is both in a
    compartment and in a record. *)
Record ownership (s : Inventory) : Prop := mkOwnership {
  own_wf : wf s = true;
  own_shelf : forall i p q, shelfHolds s i p -> shelfHolds s i q -> p = q;
  own_key : forall i k, ledgerHolds s i k -> k = getStringId i;
  own_excl : forall i p k, shelfHolds s i p -> ledgerHolds s i k -> False
}.

(** ** Further definitions: reports, [operator[]], main.cpp *)

(** A record is filed under the id string of the item it holds. *)
Definition keysMatch (s : Inventory) : Prop :=
  forall k info, checkedOutItems s !! k = Some info ->
                 k = getStringId (getID (item info)).

(** Id [i] is somewhere in the system: on a shelf or in a checkout record. *)
Definition held (i : Z) (s : Inventory) : bool := onShelf i s || inLedger i s.

(** The two places where a call can destroy an item it does not return: an
    [emplace] under a key that is already there, and a check-in over an
    occupied compartment.  [keepsItems o s] says call [o] meets neither in
    state [s]. *)
Definition keepsItems (o : Op) (s : Inventory) : bool :=
  match o with
  | CheckoutItem _ k _ => bool_decide (checkedOutItems s !! k = None)
  | CheckinItem x =>
      match checkedOutItems s !! getStringId (getID x) with
      | Some info =>
          bool_decide (slot (shelves s) (row (originalPosition info))
                            (col (originalPosition info)) = None)
      | None => true
      end
  | _ => true
  end.

(** A sequence of calls, all of which succeed and none of which meets one of
    those two places. *)
Fixpoint runKeeping (ops : list Op) (s : Inventory) : option Inventory :=
  match ops with
  | [] => Some s
  | o :: ops' =>
      if keepsItems o s
      then match step o s with
           | Some s' => runKeeping ops' s'
           | None => None
           end
      else None
  end.

(** [Inventory::operator[]] (the [const] one): the shelf that the returned
    pointer points to, as the list of its 15 compartments (in a well-formed
    state the shelf of an index that passed the test is there). *)
Definition Inventory_subscript (shelfIndex : Z) : M (list (option ItemObj)) :=
  (if (shelfIndex <? 0) || (shelfIndex >=? 3)
   then throw (out_of_range "Shelf index out of range")
   else call g := get_shelves in
        ret (default [] (g !! Z.to_nat shelfIndex)))%inv.

(** The inner loop of [operator<<(ostream&, const Inventory&)]: the
    compartments [js] of shelf [i], with the stream text so far and the
    [foundItems] flag. *)
Fixpoint printCompartments (g : list (list (option ItemObj))) (i : Z)
    (js : list Z) (os : string) (foundItems : bool) : string * bool :=
  match js with
  | [] => (os, foundItems)
  | j :: js' =>
      match slot g i j with
      | Some it =>
          printCompartments g i js'
            (os +:+ "Shelf: " +:+ pretty i +:+ ", Compartment: " +:+ pretty j
                +:+ endl +:+ Item_shl it +:+ endl)
            true
      | None => printCompartments g i js' os foundItems
      end
  end.

(** The outer loop. *)
Fixpoint printShelves (g : list (list (option ItemObj))) (rows : list Z)
    (os : string) (foundItems : bool) : string * bool :=
  match rows with
  | [] => (os, foundItems)
  | i :: rows' =>
      let '(os', found') := printCompartments g i (seqZ 0 15) os foundItems in
      printShelves g rows' os' found'
  end.

(** [operator<<(ostream&, const Inventory&)]: the text it adds to the
    stream. *)
Definition Inventory_shl (s : Inventory) : string :=
  let '(os, foundItems) :=
    printShelves (shelves s) (seqZ 0 3) ("=== Items in Storage ===" +:+ endl) false in
  if foundItems then os else os +:+ "No items in storage." +:+ endl.

(** What the report says about one occupied compartment, and about a list of
    them. *)
Definition storageEntry (e : Position * ItemObj) : string :=
  "Shelf: " +:+ pretty (row (fst e)) +:+ ", Compartment: " +:+ pretty (col (fst e))
    +:+ endl +:+ Item_shl (snd e) +:+ endl.

Definition storageEntries (es : list (Position * ItemObj)) : string :=
  foldr (fun e acc => storageEntry e +:+ acc) "" es.

(** The occupied compartments among [js] of shelf [i], and of the shelves
    [rows], in the order of the loops. *)
Definition occupiedIn (g : list (list (option ItemObj))) (i : Z) (js : list Z)
    : list (Position * ItemObj) :=
  omap (fun j => (fun it => (mkPosition i j, it)) <$> slot g i j) js.

Definition occupied (g : list (list (option ItemObj))) (rows : list Z)
    : list (Position * ItemObj) :=
  rows ≫= (fun i => occupiedIn g i (seqZ 0 15)).

(** The order in which a range-for visits a [std::map<string, ...>]:
    increasing key, strings compared character by character. *)
Definition keyLe (a b : string * CheckoutInfo) : Prop := String.le (fst a) (fst b).

#[global] Instance keyLe_dec : RelDecision keyLe.
Proof. intros a b. unfold keyLe. apply _. Defined.

Definition entriesInKeyOrder (m : gmap string CheckoutInfo)
    : list (string * CheckoutInfo) :=
  merge_sort keyLe (map_to_list m).

(** The body of the loop of [printCheckedOutItems]. *)
Definition checkedOutEntry (kv : string * CheckoutInfo) : string :=
  "Item ID: " +:+ fst kv +:+ endl +:+
  Item_shl (item (snd kv)) +:+ endl +:+
  "Checked out by: " +:+ checkedOutBy (snd kv) +:+ endl +:+
  "Due date: " +:+ dueDate (snd kv) +:+ endl +:+
  "Original position - Shelf: " +:+ pretty (getRow (originalPosition (snd kv))) +:+
  ", Compartment: " +:+ pretty (getCol (originalPosition (snd kv))) +:+ endl +:+
  "------------------------" +:+ endl.

Definition checkedOutEntries (es : list (string * CheckoutInfo)) : string :=
  foldr (fun kv acc => checkedOutEntry kv +:+ acc) "" es.

(** [Inventory::printCheckedOutItems]: the text it writes to [cout]. *)
Definition printCheckedOutItems (s : Inventory) : string :=
  "=== Checked Out Items ===" +:+ endl +:+
  (if bool_decide (checkedOutItems s = ∅)
   then "No items are currently checked out." +:+ endl
   else checkedOutEntries (entriesInKeyOrder (checkedOutItems s))).

(** [getPositionInput].  [getValidIntInput] returns the next integer that
    the user typed; [inputs] are the integers still to come.  The [while]
    loops ask again as long as the number is out of range; [None] is the case
    where the integers run out while a loop is still asking. *)
Fixpoint askShelfAgain (inputs : list Z) (shelf : Z) : option (Z * list Z) :=
  if (shelf <? 0) || (shelf >=? 3)
  then match inputs with
       | [] => None
       | v :: rest => askShelfAgain rest v
       end
  else Some (shelf, inputs).

Fixpoint askCompartmentAgain (inputs : list Z) (compartment : Z)
    : option (Z * list Z) :=
  if (compartment <? 0) || (compartment >=? 15)
  then match inputs with
       | [] => None
       | v :: rest => askCompartmentAgain rest v
       end
  else Some (compartment, inputs).

Definition getPositionInput (inputs : list Z) : option (Position * list Z) :=
  match inputs with
  | [] => None
  | v :: rest =>
      match askShelfAgain rest v with
      | None => None
      | Some (shelf, rest1) =>
          match rest1 with
          | [] => None
          | v' :: rest2 =>
              match askCompartmentAgain rest2 v' with
              | None => None
              | Some (compartment, rest3) =>
                  Some (mkPosition shelf compartment, rest3)
              end
          end
      end
  end.

(** One pass through the [switch] of [main], with what the user typed at the
    prompts of that choice: the lines read by [getLineInput], the integers
    read at the position prompts, for check-in the [int] that [stoi] made of
    the typed id, and for check-out the due date text of that moment.
    Choice 0 ends the loop and is not a pass. *)
Inductive MenuChoice :=
| AddBookChoice (name description title author copyright : string)
                (positionInputs : list Z)
| AddMagazineChoice (name description edition title : string)
                    (positionInputs : list Z)
| AddMovieChoice (name description title director : string)
                 (actors : list string) (positionInputs : list Z)
| CheckOutChoice (itemId checkOutBy due : string)
| CheckInChoice (id : Z)
| SwapChoice (positionInputs1 positionInputs2 : list Z)
| PrintAllChoice
| PrintCheckedOutChoice
| InvalidChoice.

(** What [main] holds between two passes: the inventory and [nextId]. *)
Definition MenuState : Type := Inventory * Z.

(** The largest [int] (32 bits). *)
Definition INT_MAX : Z := 2147483647.

(** Cases 1 to 3 after the item is built: [nextId++] has happened, the
    position is asked for, [addItem] is called.  [nextId] is an [int]: at
    [INT_MAX] the increment overflows, which C++ leaves undefined, so the
    program has no defined pass there: [None].  [main] catches nothing, so an
    exception ends the program: [None] as well. *)
Definition menuAdd (itm : ItemObj) (positionInputs : list Z) (st : MenuState)
    : option MenuState :=
  if snd st <? INT_MAX
  then match getPositionInput positionInputs with
       | None => None
       | Some (pos, _) =>
           match addItem pos itm (fst st) with
           | (inr _, inv') => Some (inv', snd st + 1)
           | (inl _, _) => None
           end
       end
  else None.

Definition menuStep (c : MenuChoice) (st : MenuState) : option MenuState :=
  match c with
  | AddBookChoice name description title author copyright inputs =>
      menuAdd (IsBook (mkBook (mkItem name description (snd st))
                              title author copyright)) inputs st
  | AddMagazineChoice name description edition title inputs =>
      menuAdd (IsMagazine (mkMagazine (mkItem name description (snd st))
                                      edition title)) inputs st
  | AddMovieChoice name description title director actors inputs =>
      menuAdd (IsMovie (mkMovie (mkItem name description (snd st))
                                title director actors)) inputs st
  | CheckOutChoice itemId checkOutBy due =>
      match checkoutItem due itemId checkOutBy (fst st) with
      | (inr _, inv') => Some (inv', snd st)
      | (inl _, _) => None
      end
  | CheckInChoice id =>
      match checkinItem (dummyItem id) (fst st) with
      | (inr _, inv') => Some (inv', snd st)
      | (inl _, _) => None
      end
  | SwapChoice inputs1 inputs2 =>
      match getPositionInput inputs1 with
      | None => None
      | Some (pos1, _) =>
          match getPositionInput inputs2 with
          | None => None
          | Some (pos2, _) =>
              match swapItems pos1 pos2 (fst st) with
              | (inr _, inv') => Some (inv', snd st)
              | (inl _, _) => None
              end
          end
      end
  | PrintAllChoice | PrintCheckedOutChoice | InvalidChoice => Some st
  end.

Fixpoint menuRun (cs : list MenuChoice) (st : MenuState) : option MenuState :=
  match cs with
  | [] => Some st
  | c :: cs' => match menuStep c st with
                | Some st' => menuRun cs' st'
                | None => None
                end
  end.

(** [main] starts with a fresh inventory and [nextId = 1000]. *)
Definition menuStart : MenuState := (Inventory_new, 1000).

(** What [main] keeps true between two passes: exclusive ownership, the
    counter is an [int], and every id in the system was handed out by the
    counter. *)
Definition menuInv (st : MenuState) : Prop :=
  ownership (fst st) /\ 1000 <= snd st <= INT_MAX /\
  forall i, held i (fst st) = true -> 1000 <= i < snd st.

(** * Properties *)

(** ** Positions and the grid *)

Lemma isValid_spec (p : Position) :
  isValid p = true <-> 0 <= row p < 3 /\ 0 <= col p < 15.
Proof. unfold isValid. lia. Qed.

Lemma isValid_cases (p : Position) :
  isValid p = true ->
  (row p = 0 \/ row p = 1 \/ row p = 2) /\ 0 <= col p < 15.
Proof. rewrite isValid_spec. lia. Qed.

Lemma wfShelves_spec (g : list (list (option ItemObj))) :
  wfShelves g = true <->
  length g = 3%nat /\ forall i shelf, g !! i = Some shelf -> length shelf = 15%nat.
Proof.
  unfold wfShelves. rewrite andb_true_iff, Nat.eqb_eq, forallb_forall.
  split; intros [Hl Hs]; split; try done.
  - intros i shelf Hi. apply Nat.eqb_eq, Hs.
    apply list_elem_of_In, list_elem_of_lookup. eauto.
  - intros shelf Hin. apply list_elem_of_In, list_elem_of_lookup in Hin as [i Hi].
    apply Nat.eqb_eq. eauto.
Qed.

Lemma wf_spec (s : Inventory) :
  wf s = true <->
  wfShelves (shelves s) = true /\
  forall k info, checkedOutItems s !! k = Some info ->
                 isValid (originalPosition info) = true.
Proof.
  unfold wf. rewrite andb_true_iff, bool_decide_eq_true. reflexivity.
Qed.

Lemma wf_new : wf Inventory_new = true.
Proof. reflexivity. Qed.

Lemma wfShelves_set_slot g r c v :
  wfShelves g = true -> wfShelves (set_slot g r c v) = true.
Proof.
  rewrite !wfShelves_spec. intros [Hl Hs]. unfold set_slot. split.
  - by rewrite length_alter.
  - intros i shelf. destruct (decide (i = Z.to_nat r)) as [->|Hne].
    + rewrite list_lookup_alter_eq. destruct (g !! Z.to_nat r) as [sh|] eqn:E; [|done].
      simpl. intros [= <-]. rewrite length_insert. eauto.
    + rewrite list_lookup_alter_ne by done. eauto.
Qed.

Lemma slot_set_slot_eq g r c v :
  wfShelves g = true -> 0 <= r < 3 -> 0 <= c < 15 ->
  slot (set_slot g r c v) r c = v.
Proof.
  rewrite wfShelves_spec. intros [Hl Hs] Hr Hc. unfold slot, set_slot.
  rewrite list_lookup_alter_eq.
  destruct (g !! Z.to_nat r) as [sh|] eqn:E.
  - simpl. rewrite list_lookup_insert_eq; [done|].
    rewrite (Hs _ _ E). lia.
  - apply lookup_ge_None in E. lia.
Qed.

Lemma slot_set_slot_ne g r c v r' c' :
  0 <= r -> 0 <= c -> 0 <= r' -> 0 <= c' -> (r, c) <> (r', c') ->
  slot (set_slot g r c v) r' c' = slot g r' c'.
Proof.
  intros Hr Hc Hr' Hc' Hne. unfold slot, set_slot.
  destruct (decide (Z.to_nat r = Z.to_nat r')) as [E|E].
  - rewrite <- E, list_lookup_alter_eq.
    destruct (g !! Z.to_nat r) as [sh|]; [|done]. simpl.
    rewrite list_lookup_insert_ne; [done|].
    intros E'. apply Hne. f_equal; lia.
  - by rewrite list_lookup_alter_ne.
Qed.

Lemma set_slot_same g r c :
  set_slot g r c (slot g r c) = g \/ slot g r c = None.
Proof.
  unfold slot, set_slot.
  destruct (g !! Z.to_nat r) as [sh|] eqn:E; [|by right].
  destruct (sh !! Z.to_nat c) as [p|] eqn:E'; [|by right].
  left. apply list_eq. intros i.
  destruct (decide (i = Z.to_nat r)) as [->|Hne].
  - rewrite list_lookup_alter_eq, E. simpl. by rewrite list_insert_id.
  - by rewrite list_lookup_alter_ne.
Qed.

Lemma set_slot_id g r c v :
  slot g r c = Some v -> set_slot g r c (Some v) = g.
Proof.
  intros H. destruct (set_slot_same g r c) as [E|E]; congruence.
Qed.

Lemma set_slot_set_slot g r c v w :
  set_slot (set_slot g r c v) r c w = set_slot g r c w.
Proof.
  unfold set_slot. apply list_eq. intros i.
  destruct (decide (i = Z.to_nat r)) as [->|Hne].
  - rewrite !list_lookup_alter_eq. destruct (g !! Z.to_nat r); [|done].
    simpl. by rewrite list_insert_insert_eq.
  - by rewrite !list_lookup_alter_ne.
Qed.

(** ** The scan of [checkoutItem] *)

Lemma matchesAt_true g k p :
  matchesAt g k p = true <->
  exists it, slot g (row p) (col p) = Some it /\ getStringId (getID it) = k.
Proof.
  unfold matchesAt. destruct (slot g (row p) (col p)) as [it|].
  - rewrite String.eqb_eq. split; [eauto|]. by intros (? & [= <-] & ?).
  - split; [done|]. by intros (? & ? & ?).
Qed.

Lemma scanCompartments_None g k i js :
  scanCompartments g k i js = None <->
  forall n j, js !! n = Some j -> matchesAt g k (mkPosition i j) = false.
Proof.
  induction js as [|j js IH]; simpl.
  - split; [|done]. by intros _ [|?] ?.
  - unfold matchesAt at 1. simpl.
    destruct (slot g i j) as [it|] eqn:Es.
    + destruct (String.eqb (getStringId (getID it)) k) eqn:Ek.
      * split; [done|]. intros H. specialize (H 0%nat j eq_refl).
        unfold matchesAt in H. simpl in H. rewrite Es in H. congruence.
      * rewrite IH. split.
        -- intros H [|n] j'; simpl; [|by apply H].
           intros [= <-]. unfold matchesAt. simpl. by rewrite Es.
        -- intros H n j' Hn. by apply (H (S n)).
    + rewrite IH. split.
      * intros H [|n] j'; simpl; [|by apply H].
        intros [= <-]. unfold matchesAt. simpl. by rewrite Es.
      * intros H n j' Hn. by apply (H (S n)).
Qed.

Lemma scanCompartments_Some g k i js p it :
  scanCompartments g k i js = Some (p, it) ->
  exists n j, js !! n = Some j /\ p = mkPosition i j /\
    slot g i j = Some it /\ getStringId (getID it) = k /\
    forall n' j', (n' < n)%nat -> js !! n' = Some j' ->
                  matchesAt g k (mkPosition i j') = false.
Proof.
  induction js as [|j js IH]; simpl; [done|].
  destruct (slot g i j) as [it'|] eqn:Es.
  - destruct (String.eqb (getStringId (getID it')) k) eqn:Ek.
    + intros [= <- <-]. exists 0%nat, j. apply String.eqb_eq in Ek.
      repeat split; try done. intros; lia.
    + intros H. destruct (IH H) as (n & j0 & Hn & -> & Hs & Hk & Hpre).
      exists (S n), j0. repeat split; try done.
      intros [|n'] j' Hlt; simpl.
      * intros [= <-]. unfold matchesAt. simpl. by rewrite Es.
      * apply Hpre. lia.
  - intros H. destruct (IH H) as (n & j0 & Hn & -> & Hs & Hk & Hpre).
    exists (S n), j0. repeat split; try done.
    intros [|n'] j' Hlt; simpl.
    + intros [= <-]. unfold matchesAt. simpl. by rewrite Es.
    + apply Hpre. lia.
Qed.

Lemma scanShelves_None g k rows :
  scanShelves g k rows = None <->
  forall m i, rows !! m = Some i ->
    forall n j, seqZ 0 15 !! n = Some j -> matchesAt g k (mkPosition i j) = false.
Proof.
  induction rows as [|i rows IH]; cbn -[seqZ].
  - split; [|done]. by intros _ [|?] ?.
  - destruct (scanCompartments g k i (seqZ 0 15)) as [found|] eqn:Ec.
    + split; [done|]. intros H.
      assert (scanCompartments g k i (seqZ 0 15) = None) as E; [|congruence].
      apply scanCompartments_None. intros n j. by apply (H 0%nat i).
    + rewrite IH. rewrite scanCompartments_None in Ec. split.
      * intros H [|m] i'; cbn -[seqZ]; [|by apply H]. by intros [= <-].
      * intros H m i' Hm. by apply (H (S m)).
Qed.

Lemma scanShelves_Some g k rows p it :
  scanShelves g k rows = Some (p, it) ->
  exists m n, rows !! m = Some (row p) /\ seqZ 0 15 !! n = Some (col p) /\
    slot g (row p) (col p) = Some it /\ getStringId (getID it) = k /\
    (forall m' i' n' j', (m' < m)%nat -> rows !! m' = Some i' ->
        seqZ 0 15 !! n' = Some j' -> matchesAt g k (mkPosition i' j') = false) /\
    (forall n' j', (n' < n)%nat -> seqZ 0 15 !! n' = Some j' ->
        matchesAt g k (mkPosition (row p) j') = false).
Proof.
  induction rows as [|i rows IH]; cbn -[seqZ]; [done|].
  destruct (scanCompartments g k i (seqZ 0 15)) as [found|] eqn:Ec.
  - intros [= ->].
    destruct (scanCompartments_Some _ _ _ _ _ _ Ec) as (n & j & Hn & -> & Hs & Hk & Hpre).
    exists 0%nat, n. cbn -[seqZ]. repeat split; try done. intros; lia.
  - intros H. destruct (IH H) as (m & n & Hm & Hn & Hs & Hk & Hrows & Hpre).
    exists (S m), n. repeat split; try done.
    intros [|m'] i' n' j' Hlt; cbn -[seqZ].
    + intros [= <-]. rewrite scanCompartments_None in Ec. apply Ec.
    + apply Hrows. lia.
Qed.

(** The scan over the whole grid finds nothing exactly when no compartment
    matches. *)
Lemma scan_grid_None g k :
  scanShelves g k (seqZ 0 3) = None <->
  forall q, isValid q = true -> matchesAt g k q = false.
Proof.
  rewrite scanShelves_None. split.
  - intros H [r c] Hv. apply isValid_spec in Hv. simpl in Hv.
    assert (seqZ 0 3 !! Z.to_nat r = Some r) as Hr by (apply lookup_seqZ; lia).
    assert (seqZ 0 15 !! Z.to_nat c = Some c) as Hc by (apply lookup_seqZ; lia).
    exact (H _ _ Hr _ _ Hc).
  - intros H m i Hm n j Hn.
    apply lookup_seqZ in Hm. apply lookup_seqZ in Hn.
    apply H, isValid_spec. simpl. lia.
Qed.

(** What the scan finds is the row-major first match. *)
Lemma scan_grid_Some g k p it :
  scanShelves g k (seqZ 0 3) = Some (p, it) ->
  isValid p = true /\ slot g (row p) (col p) = Some it /\
  getStringId (getID it) = k /\
  forall q, isValid q = true -> rowMajor q < rowMajor p -> matchesAt g k q = false.
Proof.
  intros H.
  destruct (scanShelves_Some _ _ _ _ _ H) as (m & n & Hm & Hn & Hs & Hk & Hrows & Hpre).
  apply lookup_seqZ in Hm. apply lookup_seqZ in Hn.
  repeat split; try done.
  - apply isValid_spec. lia.
  - intros [r c] Hv Hlt. apply isValid_spec in Hv. unfold rowMajor in Hlt.
    cbn [row col] in *. destruct (decide (r = row p)) as [->|Hne].
    + apply (Hpre (Z.to_nat c)); [lia|]. apply lookup_seqZ. lia.
    + apply (Hrows (Z.to_nat r) r (Z.to_nat c) c); [lia| |];
        apply lookup_seqZ; lia.
Qed.

(** Conversely the row-major first match is what the scan finds. *)
Lemma scan_grid_first g k p it :
  isValid p = true -> slot g (row p) (col p) = Some it ->
  getStringId (getID it) = k ->
  (forall q, isValid q = true -> rowMajor q < rowMajor p -> matchesAt g k q = false) ->
  scanShelves g k (seqZ 0 3) = Some (p, it).
Proof.
  intros Hv Hs Hk Hfirst.
  assert (matchesAt g k p = true) as Hp by (apply matchesAt_true; eauto).
  destruct (scanShelves g k (seqZ 0 3)) as [[p' it']|] eqn:E.
  - destruct (scan_grid_Some _ _ _ _ E) as (Hv' & Hs' & Hk' & Hfirst').
    assert (matchesAt g k p' = true) as Hp' by (apply matchesAt_true; eauto).
    assert (rowMajor p = rowMajor p') as Hrm.
    { destruct (Z.lt_trichotomy (rowMajor p) (rowMajor p')) as [Hlt|[Heq|Hlt]];
        [|done|].
      - rewrite (Hfirst' p Hv Hlt) in Hp. done.
      - rewrite (Hfirst p' Hv' Hlt) in Hp'. done. }
    apply isValid_spec in Hv, Hv'. unfold rowMajor in Hrm.
    destruct p as [r c], p' as [r' c']. cbn [row col] in *.
    assert (r = r') as -> by lia. assert (c = c') as -> by lia.
    congruence.
  - rewrite scan_grid_None in E. rewrite (E p Hv) in Hp. done.
Qed.

(** ** The operations, call by call *)

Lemma isCompartmentEmpty_eq pos s :
  isCompartmentEmpty pos s =
  if isValid pos
  then (inr (match slot (shelves s) (row pos) (col pos) with
             | None => true
             | Some _ => false
             end), s)
  else (inl (out_of_range "Position is out of range"), s).
Proof. unfold isCompartmentEmpty. by destruct (isValid pos). Qed.

Lemma addItem_eq p x s :
  addItem p x s =
  if isValid p
  then match slot (shelves s) (row p) (col p) with
       | Some _ => (inl (runtime_error "Compartment is not empty"), s)
       | None =>
           (inr tt, mkInventory (set_slot (shelves s) (row p) (col p)
                                          (Some (Item_copy x)))
                                (checkedOutItems s))
       end
  else (inl (out_of_range "Position is out of valid range"), s).
Proof.
  unfold addItem. destruct (isValid p) eqn:Hv; [|done]. simpl.
  unfold bind. rewrite isCompartmentEmpty_eq, Hv.
  by destruct (slot (shelves s) (row p) (col p)).
Qed.

Lemma checkoutItem_eq due k w s :
  checkoutItem due k w s =
  match scanShelves (shelves s) k (seqZ 0 3) with
  | Some (pos, it) =>
      (inr it, mkInventory (set_slot (shelves s) (row pos) (col pos) None)
                           (emplace k (mkCheckoutInfo w due pos it)
                                    (checkedOutItems s)))
  | None => (inl (runtime_error ("Item with ID " +:+ k +:+ " not found")), s)
  end.
Proof.
  unfold checkoutItem, bind, get_shelves.
  by destruct (scanShelves (shelves s) k (seqZ 0 3)) as [[pos it]|].
Qed.

Lemma checkinItem_eq x s :
  checkinItem x s =
  match checkedOutItems s !! getStringId (getID x) with
  | None => (inl (runtime_error "Item is not checked out"), s)
  | Some info =>
      (inr tt, mkInventory (set_slot (shelves s)
                                     (row (originalPosition info))
                                     (col (originalPosition info))
                                     (Some (item info)))
                           (delete (getStringId (getID x)) (checkedOutItems s)))
  end.
Proof.
  unfold checkinItem, bind, get_checkedOutItems.
  by destruct (checkedOutItems s !! getStringId (getID x)).
Qed.

Lemma swapItems_eq p q s :
  swapItems p q s =
  if isValid p && isValid q
  then match slot (shelves s) (row p) (col p), slot (shelves s) (row q) (col q) with
       | Some a, Some b =>
           (inr tt, mkInventory (set_slot (set_slot (shelves s) (row p) (col p) (Some b))
                                          (row q) (col q) (Some a))
                                (checkedOutItems s))
       | _, _ =>
           (inl (runtime_error "Cannot swap: one or both compartments are empty"), s)
       end
  else (inl (out_of_range "Position is out of valid range"), s).
Proof.
  unfold swapItems.
  destruct (isValid p) eqn:Hp; [|done].
  destruct (isValid q) eqn:Hq; [|done]. simpl.
  unfold bind. rewrite !isCompartmentEmpty_eq, Hp.
  destruct (slot (shelves s) (row p) (col p)) as [a|] eqn:Ea; [|done].
  rewrite isCompartmentEmpty_eq, Hq.
  destruct (slot (shelves s) (row q) (col q)) as [b|] eqn:Eb; [|done].
  unfold get_shelves, put_shelves, getRow, getCol. simpl. by rewrite Ea, Eb.
Qed.

(** The shape invariant holds at construction and after every call,
    whether it returns or throws. *)
Lemma wf_addItem p x s : wf s = true -> wf (snd (addItem p x s)) = true.
Proof.
  rewrite addItem_eq. intros Hwf.
  destruct (isValid p); [|done].
  destruct (slot (shelves s) (row p) (col p)); [done|]. simpl.
  apply wf_spec in Hwf as [Hg Hl]. apply wf_spec. simpl.
  split; [by apply wfShelves_set_slot|done].
Qed.

Lemma wf_checkoutItem due k w s :
  wf s = true -> wf (snd (checkoutItem due k w s)) = true.
Proof.
  rewrite checkoutItem_eq. intros Hwf.
  destruct (scanShelves (shelves s) k (seqZ 0 3)) as [[pos it]|] eqn:E; [|done].
  simpl. apply wf_spec in Hwf as [Hg Hl]. apply wf_spec. simpl.
  split; [by apply wfShelves_set_slot|].
  intros k' info. unfold emplace.
  destruct (checkedOutItems s !! k) eqn:Ek; [by apply Hl|].
  destruct (decide (k = k')) as [->|Hne].
  - rewrite lookup_insert_eq. intros [= <-]. simpl.
    by destruct (scan_grid_Some _ _ _ _ E).
  - rewrite lookup_insert_ne by done. apply Hl.
Qed.

Lemma wf_checkinItem x s : wf s = true -> wf (snd (checkinItem x s)) = true.
Proof.
  rewrite checkinItem_eq. intros Hwf.
  destruct (checkedOutItems s !! getStringId (getID x)) as [info|] eqn:E; [|done].
  simpl. apply wf_spec in Hwf as [Hg Hl]. apply wf_spec. simpl.
  split; [by apply wfShelves_set_slot|].
  intros k' info'. destruct (decide (getStringId (getID x) = k')) as [<-|Hne].
  - by rewrite lookup_delete_eq.
  - rewrite lookup_delete_ne by done. apply Hl.
Qed.

Lemma wf_swapItems p q s : wf s = true -> wf (snd (swapItems p q s)) = true.
Proof.
  rewrite swapItems_eq. intros Hwf.
  destruct (isValid p && isValid q); [|done].
  destruct (slot (shelves s) (row p) (col p)); [|done].
  destruct (slot (shelves s) (row q) (col q)); [|done]. simpl.
  apply wf_spec in Hwf as [Hg Hl]. apply wf_spec. simpl.
  split; [by do 2 apply wfShelves_set_slot|done].
Qed.

Lemma wf_step o s s' : wf s = true -> step o s = Some s' -> wf s' = true.
Proof.
  intros Hwf. destruct o as [p x|d k w|x|p q]; simpl.
  - pose proof (wf_addItem p x s Hwf) as H.
    destruct (addItem p x s) as [[e|u] s1]; [done|]. by intros [= <-].
  - pose proof (wf_checkoutItem d k w s Hwf) as H.
    destruct (checkoutItem d k w s) as [[e|u] s1]; [done|]. by intros [= <-].
  - pose proof (wf_checkinItem x s Hwf) as H.
    destruct (checkinItem x s) as [[e|u] s1]; [done|]. by intros [= <-].
  - pose proof (wf_swapItems p q s Hwf) as H.
    destruct (swapItems p q s) as [[e|u] s1]; [done|]. by intros [= <-].
Qed.

Lemma wf_run ops : forall s s', wf s = true -> run ops s = Some s' -> wf s' = true.
Proof.
  induction ops as [|o ops IH]; simpl; intros s s' Hwf.
  - by intros [= <-].
  - destruct (step o s) as [s1|] eqn:E; [|done].
    apply IH. by apply (wf_step o s).
Qed.

(** ** addItem *)

(** What [addItem] leaves in the compartment is the [Item] copy of its
    argument. *)
Lemma addItem_stores_copy p x s :
  wf s = true -> isValid p = true -> slot (shelves s) (row p) (col p) = None ->
  fst (addItem p x s) = inr tt /\
  slot (shelves (snd (addItem p x s))) (row p) (col p) = Some (IsItem (baseOf x)).
Proof.
  intros Hwf Hv He. rewrite addItem_eq, Hv, He. simpl. split; [done|].
  apply wf_spec in Hwf as [Hg _]. apply isValid_spec in Hv.
  apply slot_set_slot_eq; [done|lia|lia].
Qed.

(** C1 (the code departs from the claim): a Book added to a fresh inventory is
    stored as a plain [Item]; the compartment no longer holds a Book, and what
    it displays lacks the title, author and copyright date that the Book
    itself prints. *)
Theorem addItem_book_stored_without_subtype :
  fst (addItem p00 (IsBook sampleBook) Inventory_new) = inr tt /\
  slot (shelves (snd (addItem p00 (IsBook sampleBook) Inventory_new))) 0 0
    = Some (IsItem (mkItem "Dune" "paperback" 1000)) /\
  slot (shelves (snd (addItem p00 (IsBook sampleBook) Inventory_new))) 0 0
    <> Some (IsBook sampleBook) /\
  Item_shl <$> slot (shelves (snd (addItem p00 (IsBook sampleBook) Inventory_new))) 0 0
    = Some ("ID: 1000" +:+ endl +:+ "Name: Dune" +:+ endl +:+
            "Description: paperback" +:+ endl) /\
  Book_print sampleBook
    = "ID: 1000" +:+ endl +:+ "Name: Dune" +:+ endl +:+
      "Description: paperback" +:+ endl +:+ "Title: Dune" +:+ endl +:+
      "Author: Frank Herbert" +:+ endl +:+ "Copyright Date: 1965" +:+ endl.
Proof.
  repeat split; try reflexivity. vm_compute. discriminate.
Qed.

(** C10: [addItem] looks at the position and at the compartment only.  At a
    valid empty position it returns, whatever ids the shelves and the checkout
    records already hold; so a run of public calls can leave one id in two
    compartments, and one id both in a compartment and in a checkout
    record. *)
Theorem addItem_no_identity_check :
  (forall s p x,
     isValid p = true -> slot (shelves s) (row p) (col p) = None ->
     addItem p x s =
     (inr tt, mkInventory (set_slot (shelves s) (row p) (col p) (Some (Item_copy x)))
                          (checkedOutItems s))) /\
  (exists ops s, run ops Inventory_new = Some s /\
     slot (shelves s) 0 0 = Some item7 /\ slot (shelves s) 0 1 = Some item7') /\
  (exists ops s info, run ops Inventory_new = Some s /\
     slot (shelves s) 0 1 = Some item7' /\
     checkedOutItems s !! "7" = Some info /\ item info = item7).
Proof.
  split; [|split].
  - intros s p x Hv He. by rewrite addItem_eq, Hv, He.
  - exists [AddItem p00 item7; AddItem p01 item7']. eexists.
    split; [vm_compute; reflexivity|]. split; reflexivity.
  - exists [AddItem p00 item7; CheckoutItem "2025-06-04" "7" "Alice";
            AddItem p01 item7'].
    eexists. eexists. split; [vm_compute; reflexivity|].
    split; [reflexivity|]. split; [vm_compute; reflexivity|reflexivity].
Qed.

Lemma addItem_no_identity_check_witness :
  isValid p01 = true /\ slot (shelves sevenOut) (row p01) (col p01) = None /\
  (exists info, checkedOutItems sevenOut !! "7" = Some info /\
                getID (item info) = getID item7') /\
  fst (addItem p01 item7' sevenOut) = inr tt.
Proof.
  assert (isValid p01 = true) as Hv by reflexivity.
  assert (slot (shelves sevenOut) (row p01) (col p01) = None) as He by reflexivity.
  split; [exact Hv|]. split; [exact He|]. split.
  - eexists. split; [vm_compute; reflexivity|reflexivity].
  - rewrite (proj1 addItem_no_identity_check sevenOut p01 item7' Hv He).
    reflexivity.
Defined.

(** ** Failures *)

(** C5: when a call throws, the shelves and the checkout records are what
    they were before the call ([isCompartmentEmpty] never changes them at
    all); and [addItem] with row 3 or column 15 throws [out_of_range] with the
    state untouched. *)
Theorem failure_leaves_state_unchanged s :
  (forall p, snd (isCompartmentEmpty p s) = s) /\
  (forall p x e, fst (addItem p x s) = inl e -> snd (addItem p x s) = s) /\
  (forall due k w e, fst (checkoutItem due k w s) = inl e ->
                     snd (checkoutItem due k w s) = s) /\
  (forall x e, fst (checkinItem x s) = inl e -> snd (checkinItem x s) = s) /\
  (forall p q e, fst (swapItems p q s) = inl e -> snd (swapItems p q s) = s) /\
  (forall p x, row p = 3 \/ col p = 15 ->
     addItem p x s = (inl (out_of_range "Position is out of valid range"), s)).
Proof.
  repeat split.
  - intros p. rewrite isCompartmentEmpty_eq. by destruct (isValid p).
  - intros p x e. rewrite addItem_eq.
    destruct (isValid p); [|done].
    by destruct (slot (shelves s) (row p) (col p)).
  - intros due k w e. rewrite checkoutItem_eq.
    by destruct (scanShelves (shelves s) k (seqZ 0 3)) as [[pos it]|].
  - intros x e. rewrite checkinItem_eq.
    by destruct (checkedOutItems s !! getStringId (getID x)).
  - intros p q e. rewrite swapItems_eq.
    destruct (isValid p && isValid q); [|done].
    destruct (slot (shelves s) (row p) (col p)); [|done].
    by destruct (slot (shelves s) (row q) (col q)).
  - intros p x Hp. rewrite addItem_eq.
    assert (isValid p = false) as ->; [|done].
    apply not_true_is_false. rewrite isValid_spec. lia.
Qed.

Lemma failure_leaves_state_unchanged_witness :
  (fst (addItem p00 item2 twoOnShelf) = inl (runtime_error "Compartment is not empty") /\
   snd (addItem p00 item2 twoOnShelf) = twoOnShelf) /\
  (fst (checkoutItem "2025-06-04" "3" "Bob" twoOnShelf)
     = inl (runtime_error "Item with ID 3 not found") /\
   snd (checkoutItem "2025-06-04" "3" "Bob" twoOnShelf) = twoOnShelf) /\
  (fst (checkinItem (dummyItem 1) twoOnShelf) = inl (runtime_error "Item is not checked out") /\
   snd (checkinItem (dummyItem 1) twoOnShelf) = twoOnShelf) /\
  (fst (swapItems p00 p214 twoOnShelf)
     = inl (runtime_error "Cannot swap: one or both compartments are empty") /\
   snd (swapItems p00 p214 twoOnShelf) = twoOnShelf) /\
  addItem (mkPosition 3 0) item1 twoOnShelf
    = (inl (out_of_range "Position is out of valid range"), twoOnShelf) /\
  addItem (mkPosition 0 15) item1 twoOnShelf
    = (inl (out_of_range "Position is out of valid range"), twoOnShelf).
Proof.
  destruct (failure_leaves_state_unchanged twoOnShelf)
    as (_ & Hadd & Hout & Hin & Hswap & Hrange).
  split; [|split; [|split; [|split; [|split]]]].
  - assert (fst (addItem p00 item2 twoOnShelf)
            = inl (runtime_error "Compartment is not empty")) as E by reflexivity.
    split; [exact E|exact (Hadd _ _ _ E)].
  - assert (fst (checkoutItem "2025-06-04" "3" "Bob" twoOnShelf)
            = inl (runtime_error "Item with ID 3 not found")) as E by reflexivity.
    split; [exact E|exact (Hout _ _ _ _ E)].
  - assert (fst (checkinItem (dummyItem 1) twoOnShelf)
            = inl (runtime_error "Item is not checked out")) as E by reflexivity.
    split; [exact E|exact (Hin _ _ E)].
  - assert (fst (swapItems p00 p214 twoOnShelf)
            = inl (runtime_error "Cannot swap: one or both compartments are empty"))
      as E by reflexivity.
    split; [exact E|exact (Hswap _ _ _ E)].
  - apply Hrange. left. reflexivity.
  - apply Hrange. right. reflexivity.
Defined.

(** ** swapItems *)

(** C8: [swapItems] throws [out_of_range] when a position is invalid and
    [runtime_error] when a compartment is empty; otherwise it returns with the
    contents of the two compartments exchanged, every other compartment and
    the checkout records as before; with twice the same position the whole
    state is as before. *)
Theorem swapItems_exchanges_two_slots p q s :
  (isValid p = false \/ isValid q = false ->
   swapItems p q s = (inl (out_of_range "Position is out of valid range"), s)) /\
  (isValid p = true -> isValid q = true ->
   slot (shelves s) (row p) (col p) = None \/ slot (shelves s) (row q) (col q) = None ->
   swapItems p q s
   = (inl (runtime_error "Cannot swap: one or both compartments are empty"), s)) /\
  (forall a b,
     wf s = true -> isValid p = true -> isValid q = true ->
     slot (shelves s) (row p) (col p) = Some a ->
     slot (shelves s) (row q) (col q) = Some b ->
     fst (swapItems p q s) = inr tt /\
     slot (shelves (snd (swapItems p q s))) (row p) (col p) = Some b /\
     slot (shelves (snd (swapItems p q s))) (row q) (col q) = Some a /\
     (forall t, isValid t = true -> t <> p -> t <> q ->
        slot (shelves (snd (swapItems p q s))) (row t) (col t)
        = slot (shelves s) (row t) (col t)) /\
     checkedOutItems (snd (swapItems p q s)) = checkedOutItems s /\
     (p = q -> snd (swapItems p q s) = s)).
Proof.
  rewrite swapItems_eq. split; [|split].
  - intros [-> | ->]; [done|]. by rewrite andb_false_r.
  - intros -> -> [-> | ->]; [done|].
    by destruct (slot (shelves s) (row p) (col p)).
  - intros a b Hwf Hp Hq Ea Eb. rewrite Hp, Hq, Ea, Eb. simpl.
    apply wf_spec in Hwf as [Hg _].
    pose proof (proj1 (isValid_spec p) Hp) as [Hpr Hpc].
    pose proof (proj1 (isValid_spec q) Hq) as [Hqr Hqc].
    split; [done|]. split; [|split; [|split; [|split]]].
    + destruct (decide (q = p)) as [->|Hne].
      * rewrite slot_set_slot_eq by (try apply wfShelves_set_slot; done). congruence.
      * rewrite slot_set_slot_ne, slot_set_slot_eq; try done; try lia.
        intros [= Hr Hc]. apply Hne. destruct p, q; simpl in *; congruence.
    + apply slot_set_slot_eq; [by apply wfShelves_set_slot|done|done].
    + intros [tr tc] Ht Htp Htq. apply isValid_spec in Ht. simpl in *.
      rewrite !slot_set_slot_ne; try done; try lia.
      * intros [= Hr Hc]. apply Htp. destruct p; simpl in *; congruence.
      * intros [= Hr Hc]. apply Htq. destruct q; simpl in *; congruence.
    + done.
    + intros ->. destruct s as [g m]. simpl in *. f_equal.
      assert (a = b) as -> by congruence.
      rewrite set_slot_set_slot. by apply set_slot_id.
Qed.

Lemma swapItems_exchanges_two_slots_witness :
  swapItems (mkPosition 3 0) p00 twoOnShelf
    = (inl (out_of_range "Position is out of valid range"), twoOnShelf) /\
  swapItems p00 p214 twoOnShelf
    = (inl (runtime_error "Cannot swap: one or both compartments are empty"),
       twoOnShelf) /\
  (fst (swapItems p00 p01 twoOnShelf) = inr tt /\
   slot (shelves (snd (swapItems p00 p01 twoOnShelf))) 0 0 = Some item2 /\
   slot (shelves (snd (swapItems p00 p01 twoOnShelf))) 0 1 = Some item1 /\
   checkedOutItems (snd (swapItems p00 p01 twoOnShelf)) = checkedOutItems twoOnShelf) /\
  snd (swapItems p00 p00 twoOnShelf) = twoOnShelf.
Proof.
  split; [|split; [|split]].
  - apply (proj1 (swapItems_exchanges_two_slots (mkPosition 3 0) p00 twoOnShelf)).
    left. reflexivity.
  - apply (proj1 (proj2 (swapItems_exchanges_two_slots p00 p214 twoOnShelf)));
      [reflexivity|reflexivity|right; reflexivity].
  - pose proof (proj2 (proj2 (swapItems_exchanges_two_slots p00 p01 twoOnShelf))
                  item1 item2 eq_refl eq_refl eq_refl eq_refl eq_refl)
      as (H1 & H2 & H3 & _ & H5 & _).
    split; [exact H1|]. split; [exact H2|]. split; [exact H3|exact H5].
  - pose proof (proj2 (proj2 (swapItems_exchanges_two_slots p00 p00 twoOnShelf))
                  item1 item1 eq_refl eq_refl eq_refl eq_refl eq_refl)
      as (_ & _ & _ & _ & _ & H6).
    exact (H6 eq_refl).
Defined.

(** ** checkinItem *)

(** C3: [checkinItem] throws (and then it is "Item is not checked out")
    exactly when the id string of its argument is not a key of the checkout
    records; it depends on its argument through the id only, so the stand-in
    does what the item itself does; when the key is there it returns, the
    record's item is in the compartment at the record's position, every other
    compartment is as before, and the key is gone. *)
Theorem checkinItem_by_identity x s :
  (fst (checkinItem x s) = inl (runtime_error "Item is not checked out") <->
   checkedOutItems s !! getStringId (getID x) = None) /\
  (forall e, fst (checkinItem x s) = inl e ->
             e = runtime_error "Item is not checked out") /\
  (forall y, getID y = getID x -> checkinItem y s = checkinItem x s) /\
  checkinItem (dummyItem (getID x)) s = checkinItem x s /\
  (forall info,
     wf s = true -> checkedOutItems s !! getStringId (getID x) = Some info ->
     fst (checkinItem x s) = inr tt /\
     slot (shelves (snd (checkinItem x s)))
          (row (originalPosition info)) (col (originalPosition info))
       = Some (item info) /\
     (forall t, isValid t = true -> t <> originalPosition info ->
        slot (shelves (snd (checkinItem x s))) (row t) (col t)
        = slot (shelves s) (row t) (col t)) /\
     checkedOutItems (snd (checkinItem x s))
       = delete (getStringId (getID x)) (checkedOutItems s) /\
     checkedOutItems (snd (checkinItem x s)) !! getStringId (getID x) = None).
Proof.
  split; [|split; [|split; [|split]]].
  - rewrite checkinItem_eq.
    by destruct (checkedOutItems s !! getStringId (getID x)).
  - intros e. rewrite checkinItem_eq.
    destruct (checkedOutItems s !! getStringId (getID x)); [done|].
    simpl. congruence.
  - intros y Hy. by rewrite !checkinItem_eq, Hy.
  - by rewrite !checkinItem_eq.
  - intros info Hwf E. rewrite checkinItem_eq, E. simpl.
    apply wf_spec in Hwf as [Hg Hl].
    pose proof (proj1 (isValid_spec _) (Hl _ _ E)) as [Hr Hc].
    split; [done|]. split; [|split; [|split]].
    + by apply slot_set_slot_eq.
    + intros [tr tc] Ht Hne. apply isValid_spec in Ht. simpl in *.
      apply slot_set_slot_ne; try lia.
      intros [= Hr' Hc']. apply Hne.
      destruct (originalPosition info); simpl in *; congruence.
    + done.
    + apply lookup_delete_eq.
Qed.

Lemma checkinItem_by_identity_witness :
  fst (checkinItem (dummyItem 1) twoOnShelf)
    = inl (runtime_error "Item is not checked out") /\
  (exists info,
     checkedOutItems sevenOut !! getStringId (getID (dummyItem 7)) = Some info /\
     originalPosition info = p00 /\ item info = item7) /\
  fst (checkinItem (dummyItem 7) sevenOut) = inr tt /\
  slot (shelves (snd (checkinItem (dummyItem 7) sevenOut))) 0 0 = Some item7 /\
  checkedOutItems (snd (checkinItem (dummyItem 7) sevenOut)) !! "7" = None.
Proof.
  split; [|split].
  - apply (proj1 (checkinItem_by_identity (dummyItem 1) twoOnShelf)).
    vm_compute. reflexivity.
  - eexists. split; [vm_compute; reflexivity|]. split; reflexivity.
  - assert (checkedOutItems sevenOut !! getStringId (getID (dummyItem 7))
            = Some (mkCheckoutInfo "Alice" "2025-06-04" p00 item7)) as E
      by (vm_compute; reflexivity).
    pose proof (proj2 (proj2 (proj2 (proj2
                  (checkinItem_by_identity (dummyItem 7) sevenOut)))) _ eq_refl E)
      as (H1 & H2 & _ & _ & H5).
    split; [exact H1|]. split; [exact H2|exact H5].
Defined.

(** ** checkoutItem *)

(** C4: [checkoutItem] looks for the row-major first valid position whose
    compartment holds an item with the given id string.  If there is none it
    throws "Item with ID ... not found" and the state is as before; otherwise
    it returns that item, empties that compartment and records the position.
    Which of the two happens, and at which position, depends on the shelves
    only and not on the checkout records; on an empty grid it throws whatever
    the records hold. *)
Theorem checkoutItem_first_match_in_row_major_order due k w s :
  ((forall q, isValid q = true -> matchesAt (shelves s) k q = false) /\
   checkoutItem due k w s
   = (inl (runtime_error ("Item with ID " +:+ k +:+ " not found")), s)
   \/
   exists p it,
     isValid p = true /\
     slot (shelves s) (row p) (col p) = Some it /\
     getStringId (getID it) = k /\
     (forall q, isValid q = true -> rowMajor q < rowMajor p ->
                matchesAt (shelves s) k q = false) /\
     checkoutItem due k w s
     = (inr it, mkInventory (set_slot (shelves s) (row p) (col p) None)
                            (emplace k (mkCheckoutInfo w due p it)
                                     (checkedOutItems s)))) /\
  (forall m, fst (checkoutItem due k w (mkInventory (shelves s) m))
             = fst (checkoutItem due k w s) /\
             shelves (snd (checkoutItem due k w (mkInventory (shelves s) m)))
             = shelves (snd (checkoutItem due k w s))) /\
  (forall m, checkoutItem due k w (mkInventory (replicate 3 (replicate 15 None)) m)
             = (inl (runtime_error ("Item with ID " +:+ k +:+ " not found")),
                mkInventory (replicate 3 (replicate 15 None)) m)).
Proof.
  split; [|split].
  - rewrite checkoutItem_eq.
    destruct (scanShelves (shelves s) k (seqZ 0 3)) as [[p it]|] eqn:E.
    + right. exists p, it.
      destruct (scan_grid_Some _ _ _ _ E) as (Hv & Hs & Hk & Hfirst).
      repeat split; done.
    + left. split; [by apply scan_grid_None|done].
  - intros m. rewrite !checkoutItem_eq. cbn [shelves].
    by destruct (scanShelves (shelves s) k (seqZ 0 3)) as [[p it]|].
  - intros m. rewrite checkoutItem_eq. cbn [shelves].
    assert (scanShelves (replicate 3 (replicate 15 None)) k (seqZ 0 3) = None)
      as ->; [|done].
    apply scan_grid_None. intros q Hq. unfold matchesAt.
    apply isValid_cases in Hq as [Hr Hc].
    assert (col q = 0 \/ col q = 1 \/ col q = 2 \/ col q = 3 \/ col q = 4 \/
            col q = 5 \/ col q = 6 \/ col q = 7 \/ col q = 8 \/ col q = 9 \/
            col q = 10 \/ col q = 11 \/ col q = 12 \/ col q = 13 \/ col q = 14)
      as Hc' by lia.
    destruct Hr as [-> | [-> | ->]];
      repeat (destruct Hc' as [-> | Hc']; [reflexivity|]); by rewrite Hc'.
Qed.

(** When the same id sits in two compartments, the one checked out is the
    row-major first; here the item at (0,1) and not the one at (2,14). *)
Lemma checkoutItem_first_match_in_row_major_order_witness :
  exists s,
    run [AddItem p214 item7; AddItem p01 item7'] Inventory_new = Some s /\
    matchesAt (shelves s) "7" p214 = true /\
    fst (checkoutItem "2025-06-04" "7" "Alice" s) = inr item7' /\
    slot (shelves (snd (checkoutItem "2025-06-04" "7" "Alice" s))) 0 1 = None /\
    slot (shelves (snd (checkoutItem "2025-06-04" "7" "Alice" s))) 2 14 = Some item7 /\
    fst (checkoutItem "2025-06-04" "8" "Alice" s)
      = inl (runtime_error "Item with ID 8 not found").
Proof.
  eexists. split; [vm_compute; reflexivity|].
  match goal with |- context [checkoutItem _ "7" _ ?s0] => set (s := s0) end.
  split; [reflexivity|].
  destruct (proj1 (checkoutItem_first_match_in_row_major_order
                     "2025-06-04" "7" "Alice" s))
    as [[Hnone _] | (p & it & Hv & Hs & Hk & Hfirst & Heq)].
  - specialize (Hnone p214 eq_refl). vm_compute in Hnone. discriminate Hnone.
  - assert (p = p01) as ->.
    { destruct (Z_lt_le_dec (rowMajor p01) (rowMajor p)) as [Hlt|Hge].
      - specialize (Hfirst p01 eq_refl Hlt). vm_compute in Hfirst. discriminate Hfirst.
      - apply isValid_spec in Hv. destruct p as [r c]. unfold rowMajor in Hge.
        simpl in *. assert (r = 0) as -> by lia.
        assert (c = 0 \/ c = 1) as [-> | ->] by lia; [|reflexivity].
        vm_compute in Hs. discriminate Hs. }
    assert (it = item7') as -> by (vm_compute in Hs; injection Hs as <-; reflexivity).
    rewrite Heq. split; [reflexivity|]. split; [reflexivity|].
    split; [reflexivity|]. reflexivity.
Defined.

(** ** Check out, then check in *)

(** C6 (the code departs from the claim): a Book with the only id in the
    system is added at the valid empty position (0,0) of a fresh inventory,
    checked out and checked in with the stand-in.  The three calls return, the
    compartment is occupied again and the key is gone, but what the
    compartment holds is the plain [Item] that [addItem] stored: it is not the
    Book that was added, and title, author and copyright date are not in what
    it prints. *)
Theorem roundtrip_book_comes_back_without_subtype :
  exists s1 s3,
    isValid p00 = true /\
    slot (shelves Inventory_new) (row p00) (col p00) = None /\
    addItem p00 (IsBook sampleBook) Inventory_new = (inr tt, s1) /\
    run [CheckoutItem "2025-07-01" "1000" "Bob"; CheckinItem (dummyItem 1000)] s1
      = Some s3 /\
    runUnique [AddItem p00 (IsBook sampleBook);
               CheckoutItem "2025-07-01" "1000" "Bob";
               CheckinItem (dummyItem 1000)] Inventory_new = Some s3 /\
    isCompartmentEmpty p00 s3 = (inr false, s3) /\
    checkedOutItems s3 !! "1000" = None /\
    slot (shelves s3) 0 0 = Some (IsItem (mkItem "Dune" "paperback" 1000)) /\
    slot (shelves s3) 0 0 <> Some (IsBook sampleBook) /\
    Item_shl <$> slot (shelves s3) 0 0
      = Some ("ID: 1000" +:+ endl +:+ "Name: Dune" +:+ endl +:+
              "Description: paperback" +:+ endl) /\
    Book_print sampleBook
      = "ID: 1000" +:+ endl +:+ "Name: Dune" +:+ endl +:+
        "Description: paperback" +:+ endl +:+ "Title: Dune" +:+ endl +:+
        "Author: Frank Herbert" +:+ endl +:+ "Copyright Date: 1965" +:+ endl.
Proof.
  eexists. eexists. split; [reflexivity|]. split; [reflexivity|].
  split; [vm_compute; reflexivity|].
  do 5 (split; [vm_compute; reflexivity|]).
  split; [vm_compute; discriminate|].
  split; vm_compute; reflexivity.
Qed.

(** X19: an item is added at a valid empty position while its id
    string is not a key of the checkout records.  Then checking out that id
    returns, checking in the stand-in for the id returns, and the state after
    the two calls is the state right after [addItem]: the compartment holds
    what [addItem] put there and the id is not checked out. *)
Theorem checkout_then_checkin_restores s p x due who :
  wf s = true -> isValid p = true ->
  slot (shelves s) (row p) (col p) = None ->
  checkedOutItems s !! getStringId (getID x) = None ->
  exists s1 it,
    addItem p x s = (inr tt, s1) /\
    slot (shelves s1) (row p) (col p) = Some (Item_copy x) /\
    fst (checkoutItem due (getStringId (getID x)) who s1) = inr it /\
    checkinItem (dummyItem (getID x))
                (snd (checkoutItem due (getStringId (getID x)) who s1))
    = (inr tt, s1) /\
    isCompartmentEmpty p s1 = (inr false, s1) /\
    isItemCheckedOut (getStringId (getID x)) s1 = (inr false, s1).
Proof.
  intros Hwf Hv He Hk.
  apply wf_spec in Hwf as [Hg Hl].
  pose proof (proj1 (isValid_spec p) Hv) as [Hr Hc].
  set (g1 := set_slot (shelves s) (row p) (col p) (Some (Item_copy x))).
  assert (slot g1 (row p) (col p) = Some (Item_copy x)) as Hs1
    by (by apply slot_set_slot_eq).
  destruct (scanShelves g1 (getStringId (getID x)) (seqZ 0 3)) as [[p' it]|] eqn:E.
  - exists (mkInventory g1 (checkedOutItems s)), it.
    destruct (scan_grid_Some _ _ _ _ E) as (Hv' & Hs' & Hk' & _).
    split; [by rewrite addItem_eq, Hv, He|]. split; [done|].
    rewrite checkoutItem_eq. cbn [shelves checkedOutItems]. rewrite E.
    cbn [fst snd]. split; [done|]. split; [|split].
    + rewrite checkinItem_eq. cbn [shelves checkedOutItems].
      unfold emplace. rewrite Hk.
      change (getID (dummyItem (getID x))) with (getID x).
      rewrite lookup_insert_eq. cbn [originalPosition item].
      rewrite set_slot_set_slot, (set_slot_id _ _ _ _ Hs').
      by rewrite delete_insert_id.
    + rewrite isCompartmentEmpty_eq, Hv. cbn [shelves]. by rewrite Hs1.
    + unfold isItemCheckedOut, bind, get_checkedOutItems, ret.
      cbn [checkedOutItems]. by rewrite Hk.
  - exfalso. rewrite scan_grid_None in E. specialize (E p Hv).
    unfold matchesAt in E. rewrite Hs1 in E.
    change (getID (Item_copy x)) with (getID x) in E.
    by rewrite String.eqb_refl in E.
Qed.

Lemma checkout_then_checkin_restores_witness :
  wf twoOnShelf = true /\ isValid p214 = true /\
  slot (shelves twoOnShelf) (row p214) (col p214) = None /\
  checkedOutItems twoOnShelf !! getStringId (getID (IsBook sampleBook)) = None /\
  exists s1 it,
    addItem p214 (IsBook sampleBook) twoOnShelf = (inr tt, s1) /\
    slot (shelves s1) (row p214) (col p214) = Some (Item_copy (IsBook sampleBook)) /\
    fst (checkoutItem "2025-06-04" (getStringId (getID (IsBook sampleBook))) "Alice" s1)
      = inr it /\
    checkinItem (dummyItem (getID (IsBook sampleBook)))
                (snd (checkoutItem "2025-06-04"
                        (getStringId (getID (IsBook sampleBook))) "Alice" s1))
    = (inr tt, s1) /\
    isCompartmentEmpty p214 s1 = (inr false, s1) /\
    isItemCheckedOut (getStringId (getID (IsBook sampleBook))) s1 = (inr false, s1).
Proof.
  assert (wf twoOnShelf = true) as H1 by reflexivity.
  assert (isValid p214 = true) as H2 by reflexivity.
  assert (slot (shelves twoOnShelf) (row p214) (col p214) = None) as H3
    by reflexivity.
  assert (checkedOutItems twoOnShelf !! getStringId (getID (IsBook sampleBook))
          = None) as H4 by (vm_compute; reflexivity).
  split; [exact H1|]. split; [exact H2|]. split; [exact H3|]. split; [exact H4|].
  exact (checkout_then_checkin_restores twoOnShelf p214 (IsBook sampleBook)
           "2025-06-04" "Alice" H1 H2 H3 H4).
Defined.

(** ** Exclusive ownership under unique identities *)

Lemma getStringId_inj i j : getStringId i = getStringId j -> i = j.
Proof. unfold getStringId. apply (inj pretty). Qed.

Lemma slot_set_slot g p q v :
  wfShelves g = true -> isValid p = true -> isValid q = true ->
  slot (set_slot g (row p) (col p) v) (row q) (col q)
  = if decide (q = p) then v else slot g (row q) (col q).
Proof.
  intros Hg Hp Hq. apply isValid_spec in Hp, Hq.
  destruct (decide (q = p)) as [->|Hne].
  - apply slot_set_slot_eq; [done|lia|lia].
  - apply slot_set_slot_ne; try lia.
    intros [= Hr Hc]. apply Hne. destruct p, q; simpl in *; congruence.
Qed.

Lemma onShelf_spec s i :
  wfShelves (shelves s) = true ->
  onShelf i s = true <-> exists p, shelfHolds s i p.
Proof.
  intros Hg. apply wfShelves_spec in Hg as [Hl Hs].
  unfold onShelf, shelfIds, shelfHolds. rewrite bool_decide_eq_true.
  rewrite list_elem_of_omap. split.
  - intros (c & Hc & Hid). destruct c as [a|]; [|done]. simpl in Hid.
    injection Hid as Hid.
    apply list_elem_of_In, in_concat in Hc as (shelf & Hshelf & Ha).
    apply list_elem_of_In, list_elem_of_lookup in Hshelf as [r Hr].
    apply list_elem_of_In, list_elem_of_lookup in Ha as [c Hc].
    pose proof (lookup_lt_Some _ _ _ Hr) as Hrlt.
    pose proof (lookup_lt_Some _ _ _ Hc) as Hclt.
    rewrite (Hs _ _ Hr) in Hclt.
    exists (mkPosition (Z.of_nat r) (Z.of_nat c)). split.
    + apply isValid_spec. simpl. lia.
    + exists a. unfold slot. simpl. rewrite !Nat2Z.id, Hr, Hc. done.
  - intros (p & Hv & a & Ha & Hid). exists (Some a). split; [|by simpl; f_equal].
    unfold slot in Ha.
    destruct (shelves s !! Z.to_nat (row p)) as [shelf|] eqn:Hr; [|done].
    destruct (shelf !! Z.to_nat (col p)) as [c|] eqn:Hc; [|done]. subst c.
    apply list_elem_of_In, in_concat. exists shelf.
    split; apply list_elem_of_In, list_elem_of_lookup; eauto.
Qed.

Lemma inLedger_spec s i :
  inLedger i s = true <-> exists k, ledgerHolds s i k.
Proof.
  unfold inLedger, ledgerIds, ledgerHolds. rewrite bool_decide_eq_true.
  rewrite list_elem_of_fmap. split.
  - intros ([k info] & -> & Hin). apply elem_of_map_to_list in Hin. eauto.
  - intros (k & info & Hk & <-). exists (k, info).
    split; [done|]. by apply elem_of_map_to_list.
Qed.

Lemma slot_new r c : slot (shelves Inventory_new) r c = None.
Proof.
  unfold slot, Inventory_new. cbn [shelves].
  destruct (replicate 3 (replicate 15 (@None ItemObj)) !! Z.to_nat r)
    as [shelf|] eqn:Hr; [|done].
  apply lookup_replicate in Hr as [-> _].
  destruct (replicate 15 (@None ItemObj) !! Z.to_nat c) as [x|] eqn:Hc; [|done].
  by apply lookup_replicate in Hc as [-> _].
Qed.

Lemma ownership_new : ownership Inventory_new.
Proof.
  split.
  - reflexivity.
  - intros i p q [Hp (a & Ha & _)] _. by rewrite slot_new in Ha.
  - intros i k (info & Hk & _). done.
  - intros i p k _ (info & Hk & _). done.
Qed.

Lemma ownership_addItem p x s s' :
  ownership s -> freshId (AddItem p x) s = true ->
  addItem p x s = (inr tt, s') -> ownership s'.
Proof.
  intros [Hwf Hsh Hkey Hex] Hfresh Hadd.
  pose proof (wf_addItem p x s Hwf) as Hwf'. rewrite Hadd in Hwf'. simpl in Hwf'.
  rewrite addItem_eq in Hadd.
  destruct (isValid p) eqn:Hv; [|done].
  destruct (slot (shelves s) (row p) (col p)) eqn:He; [done|].
  injection Hadd as <-.
  pose proof (proj1 (wf_spec s) Hwf) as [Hg _].
  simpl in Hfresh. apply andb_true_iff in Hfresh as [Hf1 Hf2].
  apply negb_true_iff in Hf1, Hf2.
  assert (forall q, ~ shelfHolds s (getID x) q) as Hnos.
  { intros q Hq. assert (onShelf (getID x) s = true) as E; [|congruence].
    apply onShelf_spec; eauto. }
  assert (forall k, ~ ledgerHolds s (getID x) k) as Hnol.
  { intros k Hk. assert (inLedger (getID x) s = true) as E; [|congruence].
    apply inLedger_spec; eauto. }
  assert (forall i q, shelfHolds (mkInventory
            (set_slot (shelves s) (row p) (col p) (Some (Item_copy x)))
            (checkedOutItems s)) i q ->
          (q = p /\ i = getID x) \/ (q <> p /\ shelfHolds s i q)) as Hchar.
  { intros i q [Hq (a & Ha & Hi)]. simpl in Ha.
    rewrite slot_set_slot in Ha by done.
    destruct (decide (q = p)) as [->|Hne].
    - left. split; [done|]. injection Ha as <-. done.
    - right. split; [done|]. split; eauto. }
  split; [done| | |].
  - intros i q1 q2 H1 H2.
    destruct (Hchar _ _ H1) as [[E1 I1]|[Hn1 H1']],
             (Hchar _ _ H2) as [[E2 I2]|[Hn2 H2']].
    + congruence.
    + subst. by destruct (Hnos _ H2').
    + subst. by destruct (Hnos _ H1').
    + eauto.
  - intros i k Hk. by apply Hkey.
  - intros i q k Hq Hk.
    destruct (Hchar _ _ Hq) as [[-> ->]|[Hn Hq']].
    + by apply (Hnol k).
    + by apply (Hex i q k).
Qed.

Lemma ownership_checkoutItem due k w s it s' :
  ownership s -> checkoutItem due k w s = (inr it, s') -> ownership s'.
Proof.
  intros [Hwf Hsh Hkey Hex] Hout.
  pose proof (wf_checkoutItem due k w s Hwf) as Hwf'.
  rewrite Hout in Hwf'. cbn [snd] in Hwf'.
  rewrite checkoutItem_eq in Hout.
  destruct (scanShelves (shelves s) k (seqZ 0 3)) as [[p it0]|] eqn:E; [|done].
  injection Hout as -> <-.
  destruct (scan_grid_Some _ _ _ _ E) as (Hv & Hs & Hk & _).
  pose proof (proj1 (wf_spec s) Hwf) as [Hg _].
  assert (shelfHolds s (getID it) p) as Hp by (split; eauto).
  assert (checkedOutItems s !! k = None) as Hnone.
  { destruct (checkedOutItems s !! k) as [info|] eqn:Ek; [|done]. exfalso.
    assert (ledgerHolds s (getID (item info)) k) as Hl by (exists info; eauto).
    pose proof (Hkey _ _ Hl) as Hk'. rewrite <- Hk in Hk'.
    apply getStringId_inj in Hk'. rewrite Hk' in Hp. by apply (Hex _ _ _ Hp Hl). }
  unfold emplace in Hwf' |- *. rewrite Hnone in Hwf' |- *.
  set (info0 := mkCheckoutInfo w due p it).
  assert (forall i q, shelfHolds (mkInventory
            (set_slot (shelves s) (row p) (col p) None)
            (<[k := info0]> (checkedOutItems s))) i q ->
          q <> p /\ shelfHolds s i q) as Hcs.
  { intros i q [Hq (a & Ha & Hi)]. cbn [shelves] in Ha.
    rewrite slot_set_slot in Ha by done.
    destruct (decide (q = p)) as [->|Hne]; [done|]. split; [done|]. split; eauto. }
  assert (forall i k', ledgerHolds (mkInventory
            (set_slot (shelves s) (row p) (col p) None)
            (<[k := info0]> (checkedOutItems s))) i k' ->
          (k' = k /\ i = getID it) \/ (k' <> k /\ ledgerHolds s i k')) as Hcl.
  { intros i k' (info & Hk' & Hi). cbn [checkedOutItems] in Hk'.
    destruct (decide (k = k')) as [<-|Hne].
    - rewrite lookup_insert_eq in Hk'. injection Hk' as <-. left. by split.
    - rewrite lookup_insert_ne in Hk' by done. right. split; [done|].
      exists info. eauto. }
  split; [done| | |].
  - intros i q1 q2 H1 H2. destruct (Hcs _ _ H1), (Hcs _ _ H2). eauto.
  - intros i k' Hk'. destruct (Hcl _ _ Hk') as [[-> ->]|[_ Hl]]; [congruence|eauto].
  - intros i q k' Hq Hk'. destruct (Hcs _ _ Hq) as [Hne Hq'].
    destruct (Hcl _ _ Hk') as [[-> ->]|[_ Hl]].
    + apply Hne. eauto.
    + eauto.
Qed.

Lemma ownership_checkinItem x s s' :
  ownership s -> checkinItem x s = (inr tt, s') -> ownership s'.
Proof.
  intros [Hwf Hsh Hkey Hex] Hin.
  pose proof (wf_checkinItem x s Hwf) as Hwf'.
  rewrite Hin in Hwf'. cbn [snd] in Hwf'.
  rewrite checkinItem_eq in Hin.
  destruct (checkedOutItems s !! getStringId (getID x)) as [info|] eqn:E; [|done].
  injection Hin as <-.
  pose proof (proj1 (wf_spec s) Hwf) as [Hg Hpos].
  pose proof (Hpos _ _ E) as Hv.
  set (k := getStringId (getID x)) in *.
  assert (ledgerHolds s (getID (item info)) k) as Hl by (exists info; eauto).
  assert (forall i q, shelfHolds (mkInventory
            (set_slot (shelves s) (row (originalPosition info))
                      (col (originalPosition info)) (Some (item info)))
            (delete k (checkedOutItems s))) i q ->
          (q = originalPosition info /\ i = getID (item info)) \/
          (q <> originalPosition info /\ shelfHolds s i q)) as Hcs.
  { intros i q [Hq (a & Ha & Hi)]. cbn [shelves] in Ha.
    rewrite slot_set_slot in Ha by done.
    destruct (decide (q = originalPosition info)) as [->|Hne].
    - left. split; [done|]. by injection Ha as <-.
    - right. split; [done|]. split; eauto. }
  assert (forall i k', ledgerHolds (mkInventory
            (set_slot (shelves s) (row (originalPosition info))
                      (col (originalPosition info)) (Some (item info)))
            (delete k (checkedOutItems s))) i k' ->
          k' <> k /\ ledgerHolds s i k') as Hcl.
  { intros i k' (info' & Hk' & Hi). cbn [checkedOutItems] in Hk'.
    destruct (decide (k = k')) as [<-|Hne].
    - by rewrite lookup_delete_eq in Hk'.
    - rewrite lookup_delete_ne in Hk' by done. split; [done|].
      exists info'. eauto. }
  split; [done| | |].
  - intros i q1 q2 H1 H2.
    destruct (Hcs _ _ H1) as [[E1 I1]|[Hn1 H1']],
             (Hcs _ _ H2) as [[E2 I2]|[Hn2 H2']].
    + congruence.
    + subst. by destruct (Hex _ _ _ H2' Hl).
    + subst. by destruct (Hex _ _ _ H1' Hl).
    + eauto.
  - intros i k' Hk'. destruct (Hcl _ _ Hk'). eauto.
  - intros i q k' Hq Hk'. destruct (Hcl _ _ Hk') as [Hne Hl'].
    destruct (Hcs _ _ Hq) as [[-> ->]|[_ Hq']].
    + apply Hne. rewrite (Hkey _ _ Hl'). by rewrite (Hkey _ _ Hl).
    + eauto.
Qed.

Lemma ownership_swapItems p q s s' :
  ownership s -> swapItems p q s = (inr tt, s') -> ownership s'.
Proof.
  intros [Hwf Hsh Hkey Hex] Hswap.
  pose proof (wf_swapItems p q s Hwf) as Hwf'.
  rewrite Hswap in Hwf'. cbn [snd] in Hwf'.
  rewrite swapItems_eq in Hswap.
  destruct (isValid p) eqn:Hp; [|done].
  destruct (isValid q) eqn:Hq; [|done]. cbn [andb] in Hswap.
  destruct (slot (shelves s) (row p) (col p)) as [a|] eqn:Ea; [|done].
  destruct (slot (shelves s) (row q) (col q)) as [b|] eqn:Eb; [|done].
  injection Hswap as <-.
  pose proof (proj1 (wf_spec s) Hwf) as [Hg _].
  set (sigma := fun t => if decide (t = q) then p else if decide (t = p) then q else t).
  assert (forall t, isValid t = true -> isValid (sigma t) = true) as Hsv.
  { intros t Ht. unfold sigma. by repeat case_decide. }
  assert (forall t u, sigma t = sigma u -> t = u) as Hinj.
  { intros t u. unfold sigma. repeat case_decide; congruence. }
  assert (forall i t, shelfHolds (mkInventory
            (set_slot (set_slot (shelves s) (row p) (col p) (Some b))
                      (row q) (col q) (Some a))
            (checkedOutItems s)) i t -> shelfHolds s i (sigma t)) as Hcs.
  { intros i t [Ht (c & Hc & Hi)]. cbn [shelves] in Hc.
    rewrite !slot_set_slot in Hc by (try apply wfShelves_set_slot; done).
    split; [by apply Hsv|]. exists c. split; [|done]. unfold sigma.
    destruct (decide (t = q)) as [->|Hnq]; [congruence|].
    destruct (decide (t = p)) as [->|Hnp]; congruence. }
  split; [done| | |].
  - intros i t u Ht Hu. apply Hinj. eauto.
  - intros i k Hk. by apply Hkey.
  - intros i t k Ht Hk. eauto.
Qed.

Lemma ownership_step o s s' :
  ownership s -> freshId o s = true -> step o s = Some s' -> ownership s'.
Proof.
  intros Hown Hfresh. destruct o as [p x|d k w|x|p q]; cbn [step].
  - destruct (addItem p x s) as [[e|[]] s1] eqn:E; [done|].
    intros [= <-]. by apply (ownership_addItem p x s).
  - destruct (checkoutItem d k w s) as [[e|it] s1] eqn:E; [done|].
    intros [= <-]. by apply (ownership_checkoutItem d k w s it).
  - destruct (checkinItem x s) as [[e|[]] s1] eqn:E; [done|].
    intros [= <-]. by apply (ownership_checkinItem x s).
  - destruct (swapItems p q s) as [[e|[]] s1] eqn:E; [done|].
    intros [= <-]. by apply (ownership_swapItems p q s).
Qed.

Lemma ownership_runUnique ops :
  forall s s', ownership s -> runUnique ops s = Some s' -> ownership s'.
Proof.
  induction ops as [|o ops IH]; cbn [runUnique]; intros s s' Hown.
  - by intros [= <-].
  - destruct (freshId o s) eqn:Hf; [|done].
    destruct (step o s) as [s1|] eqn:E; [|done].
    apply IH. by apply (ownership_step o s).
Qed.

(** X18: in every state that unique-identity calls reach from a fresh inventory,
    no id is both on a shelf and in a checkout record, an id is in at most one
    compartment, and an id is filed under at most one key. *)
Theorem unique_ids_never_on_shelf_and_checked_out ops s :
  runUnique ops Inventory_new = Some s ->
  forall i,
    onShelf i s && inLedger i s = false /\
    (forall p q, shelfHolds s i p -> shelfHolds s i q -> p = q) /\
    (forall k k', ledgerHolds s i k -> ledgerHolds s i k' -> k = k').
Proof.
  intros Hrun i.
  pose proof (ownership_runUnique ops _ _ ownership_new Hrun) as [Hwf Hsh Hkey Hex].
  pose proof (proj1 (wf_spec s) Hwf) as [Hg _].
  split; [|split].
  - destruct (onShelf i s) eqn:Hs; [|done].
    destruct (inLedger i s) eqn:Hl; [|done]. exfalso.
    apply onShelf_spec in Hs as [p Hp]; [|done].
    apply inLedger_spec in Hl as [k Hk]. eauto.
  - eauto.
  - intros k k' Hk Hk'. by rewrite (Hkey _ _ Hk), (Hkey _ _ Hk').
Qed.

Lemma unique_ids_never_on_shelf_and_checked_out_example :
  exists s,
    runUnique [AddItem p00 item1; AddItem p01 item2;
               CheckoutItem "2025-06-04" "1" "Alice"; SwapItems p01 p01;
               CheckinItem (dummyItem 1)] Inventory_new = Some s /\
    onShelf 1 s && inLedger 1 s = false /\
    onShelf 2 s && inLedger 2 s = false.
Proof.
  eexists. split; [vm_compute; reflexivity|].
  match goal with |- context [onShelf 1 ?s0] => set (s := s0) end.
  assert (runUnique [AddItem p00 item1; AddItem p01 item2;
                     CheckoutItem "2025-06-04" "1" "Alice"; SwapItems p01 p01;
                     CheckinItem (dummyItem 1)] Inventory_new = Some s) as Hrun
    by (vm_compute; reflexivity).
  split.
  - exact (proj1 (unique_ids_never_on_shelf_and_checked_out _ _ Hrun 1)).
  - exact (proj1 (unique_ids_never_on_shelf_and_checked_out _ _ Hrun 2)).
Defined.

(** ** Ownership across calls *)

(** C2 (the code departs from the claim): ids 1 and 2 are distinct.  Item 1 is
    added at (0,0) and checked out, item 2 is added at the vacated (0,0), and
    item 1 is checked in.  All four calls return.  Before the check-in id 2 is
    on a shelf and id 1 is in a checkout record; after it id 2 is neither on a
    shelf nor in a checkout record. *)
Theorem checkin_over_refilled_slot_loses_identity :
  exists s3 s4,
    run [AddItem p00 item1; CheckoutItem "2025-06-04" "1" "Alice";
         AddItem p00 item2] Inventory_new = Some s3 /\
    onShelf 1 s3 = false /\ inLedger 1 s3 = true /\
    onShelf 2 s3 = true /\ inLedger 2 s3 = false /\
    run [CheckinItem (dummyItem 1)] s3 = Some s4 /\
    onShelf 1 s4 = true /\ inLedger 1 s4 = false /\
    onShelf 2 s4 = false /\ inLedger 2 s4 = false.
Proof.
  eexists. eexists. split; [vm_compute; reflexivity|].
  do 4 (split; [vm_compute; reflexivity|]).
  split; [vm_compute; reflexivity|].
  repeat split; vm_compute; reflexivity.
Qed.

(** C7 (the code departs from the claim): in the state reached by adding
    item 1 at (0,0), checking it out and adding item 2 at (0,0), item 2 is
    owned by a compartment; [checkinItem] for id 1 returns, puts item 1 at
    (0,0), and item 2 is owned by no compartment and no checkout record. *)
Theorem checkinItem_overwrites_occupied_slot :
  exists s3,
    run [AddItem p00 item1; CheckoutItem "2025-06-04" "1" "Alice";
         AddItem p00 item2] Inventory_new = Some s3 /\
    slot (shelves s3) 0 0 = Some item2 /\
    itemOnShelf item2 s3 = true /\
    fst (checkinItem (dummyItem 1) s3) = inr tt /\
    slot (shelves (snd (checkinItem (dummyItem 1) s3))) 0 0 = Some item1 /\
    itemOnShelf item2 (snd (checkinItem (dummyItem 1) s3)) = false /\
    itemInLedger item2 (snd (checkinItem (dummyItem 1) s3)) = false.
Proof.
  eexists. split; [vm_compute; reflexivity|].
  repeat split; vm_compute; reflexivity.
Qed.

(** * Further properties of the operations *)

(** Two grids of the right shape with the same contents at every valid
    position are the same grid. *)
Lemma grid_ext g g' :
  wfShelves g = true -> wfShelves g' = true ->
  (forall p, isValid p = true ->
             slot g (row p) (col p) = slot g' (row p) (col p)) ->
  g = g'.
Proof.
  intros Hg Hg' Heq.
  apply wfShelves_spec in Hg as [Hl Hs], Hg' as [Hl' Hs'].
  apply list_eq. intros i.
  destruct (decide (i < 3)%nat) as [Hi|Hi].
  - destruct (lookup_lt_is_Some_2 g i) as [sh Hsh]; [lia|].
    destruct (lookup_lt_is_Some_2 g' i) as [sh' Hsh']; [lia|].
    rewrite Hsh, Hsh'. f_equal. apply list_eq. intros j.
    destruct (decide (j < 15)%nat) as [Hj|Hj].
    + destruct (lookup_lt_is_Some_2 sh j) as [c Hc]; [rewrite (Hs _ _ Hsh); lia|].
      destruct (lookup_lt_is_Some_2 sh' j) as [c' Hc']; [rewrite (Hs' _ _ Hsh'); lia|].
      specialize (Heq (mkPosition (Z.of_nat i) (Z.of_nat j))).
      unfold slot in Heq. cbn [row col] in Heq.
      rewrite !Nat2Z.id, Hsh, Hsh', Hc, Hc' in Heq.
      rewrite Hc, Hc'. f_equal. apply Heq. apply isValid_spec. cbn [row col]. lia.
    + rewrite !lookup_ge_None_2; [done| |].
      * rewrite (Hs' _ _ Hsh'). lia.
      * rewrite (Hs _ _ Hsh). lia.
  - rewrite !lookup_ge_None_2; [done|lia|lia].
Qed.

(** ** The constructor *)

(** X1: right after construction every valid compartment is empty, no id
    is checked out, a check-in of any item throws "Item is not checked out"
    and a swap of any two valid positions throws for empty compartments. *)
Theorem fresh_inventory_is_empty p q x k :
  isValid p = true -> isValid q = true ->
  isCompartmentEmpty p Inventory_new = (inr true, Inventory_new) /\
  isItemCheckedOut k Inventory_new = (inr false, Inventory_new) /\
  checkinItem x Inventory_new
    = (inl (runtime_error "Item is not checked out"), Inventory_new) /\
  swapItems p q Inventory_new
    = (inl (runtime_error "Cannot swap: one or both compartments are empty"),
       Inventory_new).
Proof.
  intros Hp Hq. split; [|split; [|split]].
  - by rewrite isCompartmentEmpty_eq, Hp, slot_new.
  - reflexivity.
  - by rewrite checkinItem_eq.
  - by rewrite swapItems_eq, Hp, Hq, slot_new.
Qed.

Lemma fresh_inventory_is_empty_witness :
  isCompartmentEmpty p214 Inventory_new = (inr true, Inventory_new) /\
  isItemCheckedOut "1000" Inventory_new = (inr false, Inventory_new) /\
  checkinItem (dummyItem 1000) Inventory_new
    = (inl (runtime_error "Item is not checked out"), Inventory_new) /\
  swapItems p214 p00 Inventory_new
    = (inl (runtime_error "Cannot swap: one or both compartments are empty"),
       Inventory_new).
Proof.
  exact (fresh_inventory_is_empty p214 p00 (dummyItem 1000) "1000" eq_refl eq_refl).
Defined.

(** ** addItem *)

(** X2: after [addItem] at a valid empty position of a well-formed state,
    the compartment is no longer empty, a second [addItem] at the same
    position throws "Compartment is not empty" and changes nothing, and
    every other compartment and the checkout records are as before. *)
Theorem addItem_occupies_slot p x y s :
  wf s = true -> isValid p = true -> slot (shelves s) (row p) (col p) = None ->
  fst (addItem p x s) = inr tt /\
  isCompartmentEmpty p (snd (addItem p x s)) = (inr false, snd (addItem p x s)) /\
  addItem p y (snd (addItem p x s))
    = (inl (runtime_error "Compartment is not empty"), snd (addItem p x s)) /\
  (forall t, isValid t = true -> t <> p ->
     slot (shelves (snd (addItem p x s))) (row t) (col t)
     = slot (shelves s) (row t) (col t)) /\
  checkedOutItems (snd (addItem p x s)) = checkedOutItems s.
Proof.
  intros Hwf Hv He.
  destruct (addItem_stores_copy p x s Hwf Hv He) as [Hok Hst].
  pose proof (proj1 (wf_spec s) Hwf) as [Hg _].
  split; [done|]. split; [|split; [|split]].
  - by rewrite isCompartmentEmpty_eq, Hv, Hst.
  - by rewrite (addItem_eq p y), Hv, Hst.
  - intros t Ht Hne. rewrite addItem_eq, Hv, He. cbn [snd shelves].
    rewrite slot_set_slot by done. by rewrite decide_False.
  - by rewrite addItem_eq, Hv, He.
Qed.

Lemma addItem_occupies_slot_witness :
  fst (addItem p214 (IsBook sampleBook) twoOnShelf) = inr tt /\
  isCompartmentEmpty p214 (snd (addItem p214 (IsBook sampleBook) twoOnShelf))
    = (inr false, snd (addItem p214 (IsBook sampleBook) twoOnShelf)) /\
  addItem p214 item7 (snd (addItem p214 (IsBook sampleBook) twoOnShelf))
    = (inl (runtime_error "Compartment is not empty"),
       snd (addItem p214 (IsBook sampleBook) twoOnShelf)) /\
  slot (shelves (snd (addItem p214 (IsBook sampleBook) twoOnShelf))) 0 0 = Some item1.
Proof.
  pose proof (addItem_occupies_slot p214 (IsBook sampleBook) item7 twoOnShelf
                eq_refl eq_refl eq_refl) as (H1 & H2 & H3 & H4 & _).
  split; [exact H1|]. split; [exact H2|]. split; [exact H3|].
  assert (p00 <> p214) as Hne by discriminate.
  exact (H4 p00 eq_refl Hne).
Defined.

(** X3: what [addItem] stores has the id, the name and the description of
    the item it was given, and prints through [Item&] exactly as that
    item does. *)
Theorem addItem_keeps_base_fields p x s :
  wf s = true -> isValid p = true -> slot (shelves s) (row p) (col p) = None ->
  exists stored,
    slot (shelves (snd (addItem p x s))) (row p) (col p) = Some stored /\
    getID stored = getID x /\ getName stored = getName x /\
    getDescription stored = getDescription x /\
    Item_shl stored = Item_shl x.
Proof.
  intros Hwf Hv He.
  destruct (addItem_stores_copy p x s Hwf Hv He) as [_ Hst].
  exists (IsItem (baseOf x)). by repeat split.
Qed.

Lemma addItem_keeps_base_fields_witness :
  exists stored,
    slot (shelves (snd (addItem p214 (IsBook sampleBook) twoOnShelf))) 2 14
      = Some stored /\
    getID stored = 1000 /\ getName stored = "Dune" /\
    getDescription stored = "paperback" /\
    Item_shl stored = Item_shl (IsBook sampleBook).
Proof.
  exact (addItem_keeps_base_fields p214 (IsBook sampleBook) twoOnShelf
           eq_refl eq_refl eq_refl).
Defined.

(** ** checkoutItem *)

Lemma isItemCheckedOut_eq k s :
  isItemCheckedOut k s = (inr (bool_decide (is_Some (checkedOutItems s !! k))), s).
Proof. reflexivity. Qed.

Lemma emplace_lookup_eq k info (m : gmap string CheckoutInfo) :
  emplace k info m !! k = Some (default info (m !! k)).
Proof.
  unfold emplace. destruct (m !! k) as [old|] eqn:E; [done|].
  by rewrite lookup_insert_eq.
Qed.

Lemma emplace_lookup_ne k k' info (m : gmap string CheckoutInfo) :
  k <> k' -> emplace k info m !! k' = m !! k'.
Proof.
  intros Hne. unfold emplace. destruct (m !! k); [done|].
  by rewrite lookup_insert_ne.
Qed.

(** A successful [checkoutItem], unfolded: the scan found [it] at [p]. *)
Lemma checkoutItem_inr due k w s it :
  fst (checkoutItem due k w s) = inr it ->
  exists p,
    scanShelves (shelves s) k (seqZ 0 3) = Some (p, it) /\
    snd (checkoutItem due k w s)
    = mkInventory (set_slot (shelves s) (row p) (col p) None)
                  (emplace k (mkCheckoutInfo w due p it) (checkedOutItems s)).
Proof.
  rewrite checkoutItem_eq.
  destruct (scanShelves (shelves s) k (seqZ 0 3)) as [[p it0]|] eqn:E; [|done].
  cbn [fst snd]. intros [= ->]. eauto.
Qed.

(** X4: when [checkoutItem] returns an item, the item's id string is the
    requested one and the id is checked out afterwards; the item was in a
    valid compartment that is now empty, every other compartment is as
    before, a key that was free now maps to the record of custodian, due date,
    that position and that item, and all other keys are as before. *)
Theorem checkoutItem_moves_item_to_ledger due k w s it :
  wf s = true -> fst (checkoutItem due k w s) = inr it ->
  getStringId (getID it) = k /\
  isItemCheckedOut k (snd (checkoutItem due k w s))
    = (inr true, snd (checkoutItem due k w s)) /\
  (exists p,
     isValid p = true /\
     slot (shelves s) (row p) (col p) = Some it /\
     slot (shelves (snd (checkoutItem due k w s))) (row p) (col p) = None /\
     (forall t, isValid t = true -> t <> p ->
        slot (shelves (snd (checkoutItem due k w s))) (row t) (col t)
        = slot (shelves s) (row t) (col t)) /\
     (checkedOutItems s !! k = None ->
      checkedOutItems (snd (checkoutItem due k w s)) !! k
      = Some (mkCheckoutInfo w due p it))) /\
  (forall k', k' <> k ->
     checkedOutItems (snd (checkoutItem due k w s)) !! k'
     = checkedOutItems s !! k').
Proof.
  intros Hwf Hok.
  destruct (checkoutItem_inr _ _ _ _ _ Hok) as (p & E & ->).
  destruct (scan_grid_Some _ _ _ _ E) as (Hv & Hs & Hk & _).
  pose proof (proj1 (wf_spec s) Hwf) as [Hg _].
  split; [done|]. split; [|split].
  - rewrite isItemCheckedOut_eq. cbn [checkedOutItems].
    by rewrite emplace_lookup_eq.
  - exists p. cbn [shelves checkedOutItems]. repeat split; try done.
    + rewrite slot_set_slot by done. by rewrite decide_True.
    + intros t Ht Hne. rewrite slot_set_slot by done. by rewrite decide_False.
    + intros Hnone. by rewrite emplace_lookup_eq, Hnone.
  - intros k' Hne. cbn [checkedOutItems]. by apply emplace_lookup_ne.
Qed.

Lemma checkoutItem_moves_item_to_ledger_witness :
  getStringId (getID item2) = "2" /\
  isItemCheckedOut "2" (snd (checkoutItem "2025-06-04" "2" "Bob" twoOnShelf))
    = (inr true, snd (checkoutItem "2025-06-04" "2" "Bob" twoOnShelf)) /\
  checkedOutItems (snd (checkoutItem "2025-06-04" "2" "Bob" twoOnShelf)) !! "1"
    = None.
Proof.
  assert (fst (checkoutItem "2025-06-04" "2" "Bob" twoOnShelf) = inr item2) as Hok
    by reflexivity.
  pose proof (checkoutItem_moves_item_to_ledger "2025-06-04" "2" "Bob" twoOnShelf
                item2 eq_refl Hok) as (H1 & H2 & _ & H4).
  split; [exact H1|]. split; [exact H2|].
  rewrite (H4 "1"); [vm_compute; reflexivity|discriminate].
Defined.

(** X5: in a state reached by calls that keep identities unique, an id that
    was just checked out cannot be checked out again: the second call throws
    "Item with ID ... not found" and changes nothing. *)
Theorem checkoutItem_twice_fails ops s due k w it due' w' :
  runUnique ops Inventory_new = Some s ->
  fst (checkoutItem due k w s) = inr it ->
  checkoutItem due' k w' (snd (checkoutItem due k w s))
  = (inl (runtime_error ("Item with ID " +:+ k +:+ " not found")),
     snd (checkoutItem due k w s)).
Proof.
  intros Hrun Hok.
  pose proof (ownership_runUnique ops _ _ ownership_new Hrun) as Hown.
  destruct (checkoutItem due k w s) as [r s1] eqn:Eout. cbn [fst snd] in *.
  subst r.
  pose proof (ownership_checkoutItem _ _ _ _ _ _ Hown Eout) as [Hwf1 _ Hkey1 Hex1].
  rewrite checkoutItem_eq in Eout.
  destruct (scanShelves (shelves s) k (seqZ 0 3)) as [[p it0]|] eqn:E; [|done].
  injection Eout as -> <-.
  rewrite checkoutItem_eq.
  match goal with
  | |- context [scanShelves ?g k (seqZ 0 3)] =>
      destruct (scanShelves g k (seqZ 0 3)) as [[p' it']|] eqn:E'; [|done]
  end.
  exfalso. cbn [shelves] in E'.
  destruct (scan_grid_Some _ _ _ _ E') as (Hv' & Hs' & Hk' & _).
  set (s1 := mkInventory (set_slot (shelves s) (row p) (col p) None)
               (emplace k (mkCheckoutInfo w due p it) (checkedOutItems s))) in *.
  assert (exists info, checkedOutItems s1 !! k = Some info) as [info Hinfo].
  { unfold s1. cbn [checkedOutItems]. rewrite emplace_lookup_eq. eauto. }
  assert (ledgerHolds s1 (getID (item info)) k) as Hl by (exists info; eauto).
  pose proof (Hkey1 _ _ Hl) as Hkk. rewrite <- Hk' in Hkk.
  apply getStringId_inj in Hkk.
  apply (Hex1 (getID it') p' k); [split; eauto|by rewrite Hkk].
Qed.

Lemma checkoutItem_twice_fails_witness :
  runUnique [AddItem p00 item1; AddItem p01 item2] Inventory_new = Some twoOnShelf /\
  fst (checkoutItem "2025-06-04" "2" "Bob" twoOnShelf) = inr item2 /\
  fst (checkoutItem "2025-06-05" "2" "Carol"
         (snd (checkoutItem "2025-06-04" "2" "Bob" twoOnShelf)))
  = inl (runtime_error "Item with ID 2 not found").
Proof.
  assert (runUnique [AddItem p00 item1; AddItem p01 item2] Inventory_new
          = Some twoOnShelf) as Hrun by (vm_compute; reflexivity).
  assert (fst (checkoutItem "2025-06-04" "2" "Bob" twoOnShelf) = inr item2) as Hok
    by reflexivity.
  split; [exact Hrun|]. split; [exact Hok|].
  rewrite (checkoutItem_twice_fails _ _ "2025-06-04" "2" "Bob" item2
             "2025-06-05" "Carol" Hrun Hok).
  reflexivity.
Defined.

(** X6: when the id string is already a key of the checkout records and
    [checkoutItem] still finds a matching item on a shelf, the call returns,
    the checkout records are exactly as before and the compartment is
    emptied: the item that was found is kept nowhere. *)
Theorem checkoutItem_existing_key_drops_item due k w s it info :
  wf s = true -> checkedOutItems s !! k = Some info ->
  fst (checkoutItem due k w s) = inr it ->
  checkedOutItems (snd (checkoutItem due k w s)) = checkedOutItems s /\
  exists p,
    isValid p = true /\
    slot (shelves s) (row p) (col p) = Some it /\
    slot (shelves (snd (checkoutItem due k w s))) (row p) (col p) = None /\
    forall t, isValid t = true -> t <> p ->
      slot (shelves (snd (checkoutItem due k w s))) (row t) (col t)
      = slot (shelves s) (row t) (col t).
Proof.
  intros Hwf Hk Hok.
  destruct (checkoutItem_inr _ _ _ _ _ Hok) as (p & E & ->).
  destruct (scan_grid_Some _ _ _ _ E) as (Hv & Hs & _ & _).
  pose proof (proj1 (wf_spec s) Hwf) as [Hg _].
  cbn [shelves checkedOutItems]. split.
  - unfold emplace. by rewrite Hk.
  - exists p. repeat split; try done.
    + rewrite slot_set_slot by done. by rewrite decide_True.
    + intros t Ht Hne. rewrite slot_set_slot by done. by rewrite decide_False.
Qed.

Lemma checkoutItem_existing_key_drops_item_witness :
  exists s,
    run [AddItem p01 item7'] sevenOut = Some s /\
    fst (checkoutItem "2025-07-01" "7" "Bob" s) = inr item7' /\
    checkedOutItems (snd (checkoutItem "2025-07-01" "7" "Bob" s))
      = checkedOutItems s /\
    itemOnShelf item7' (snd (checkoutItem "2025-07-01" "7" "Bob" s)) = false /\
    itemInLedger item7' (snd (checkoutItem "2025-07-01" "7" "Bob" s)) = false.
Proof.
  eexists. split; [vm_compute; reflexivity|].
  match goal with |- context [checkoutItem _ _ _ ?s0] => set (s := s0) end.
  assert (fst (checkoutItem "2025-07-01" "7" "Bob" s) = inr item7') as Hok
    by reflexivity.
  assert (checkedOutItems s !! "7"
          = Some (mkCheckoutInfo "Alice" "2025-06-04" p00 item7)) as Hk
    by (vm_compute; reflexivity).
  split; [exact Hok|]. split.
  - exact (proj1 (checkoutItem_existing_key_drops_item "2025-07-01" "7" "Bob" s
                    item7' _ eq_refl Hk Hok)).
  - split; vm_compute; reflexivity.
Defined.

(** ** swapItems *)

(** A successful [swapItems], unfolded. *)
Lemma swapItems_inr p q s :
  fst (swapItems p q s) = inr tt ->
  exists a b,
    isValid p = true /\ isValid q = true /\
    slot (shelves s) (row p) (col p) = Some a /\
    slot (shelves s) (row q) (col q) = Some b /\
    snd (swapItems p q s)
    = mkInventory (set_slot (set_slot (shelves s) (row p) (col p) (Some b))
                            (row q) (col q) (Some a))
                  (checkedOutItems s).
Proof.
  rewrite swapItems_eq.
  destruct (isValid p) eqn:Hp; [|done].
  destruct (isValid q) eqn:Hq; [|done]. cbn [andb].
  destruct (slot (shelves s) (row p) (col p)) as [a|] eqn:Ea; [|done].
  destruct (slot (shelves s) (row q) (col q)) as [b|] eqn:Eb; [|done].
  intros _. exists a, b. by repeat split.
Qed.

(** X7: a successful [swapItems] followed by the same [swapItems] succeeds
    and gives back the state before the first one. *)
Theorem swapItems_twice_restores p q s :
  wf s = true -> fst (swapItems p q s) = inr tt ->
  swapItems p q (snd (swapItems p q s)) = (inr tt, s).
Proof.
  intros Hwf Hok.
  destruct (swapItems_inr _ _ _ Hok) as (a & b & Hp & Hq & Ea & Eb & ->).
  pose proof (proj1 (wf_spec s) Hwf) as [Hg _].
  set (g1 := set_slot (set_slot (shelves s) (row p) (col p) (Some b))
                      (row q) (col q) (Some a)).
  assert (wfShelves g1 = true) as Hg1 by (by do 2 apply wfShelves_set_slot).
  assert (forall t, isValid t = true ->
            slot g1 (row t) (col t)
            = if decide (t = q) then Some a
              else if decide (t = p) then Some b
              else slot (shelves s) (row t) (col t)) as Hg1s.
  { intros t Ht. unfold g1.
    rewrite !slot_set_slot by (try apply wfShelves_set_slot; done). done. }
  clearbody g1.
  rewrite swapItems_eq, Hp, Hq. cbn [andb shelves checkedOutItems].
  rewrite (Hg1s p Hp), (Hg1s q Hq).
  rewrite (decide_True (P := p = p)) by done.
  rewrite (decide_True (P := q = q)) by done.
  assert ((if decide (p = q) then Some a else Some b) = Some (if decide (p = q) then a else b))
    as -> by (by case_decide).
  destruct s as [g m]. cbn [shelves checkedOutItems] in *. f_equal. f_equal.
  apply grid_ext; [by do 2 apply wfShelves_set_slot|done|].
  intros t Ht.
  rewrite !slot_set_slot by (try apply wfShelves_set_slot; done).
  rewrite (Hg1s t Ht).
  destruct (decide (t = q)) as [->|Hnq].
  - case_decide; congruence.
  - destruct (decide (t = p)) as [->|Hnp]; [congruence|done].
Qed.

Lemma swapItems_twice_restores_witness :
  fst (swapItems p00 p01 twoOnShelf) = inr tt /\
  slot (shelves (snd (swapItems p00 p01 twoOnShelf))) 0 0 = Some item2 /\
  swapItems p00 p01 (snd (swapItems p00 p01 twoOnShelf)) = (inr tt, twoOnShelf).
Proof.
  assert (fst (swapItems p00 p01 twoOnShelf) = inr tt) as Hok by reflexivity.
  split; [exact Hok|]. split; [reflexivity|].
  exact (swapItems_twice_restores p00 p01 twoOnShelf eq_refl Hok).
Defined.

(** X8: [swapItems] does not depend on the order of its two positions:
    same exception or same resulting state. *)
Theorem swapItems_symmetric p q s :
  wf s = true -> swapItems q p s = swapItems p q s.
Proof.
  intros Hwf. rewrite !swapItems_eq. rewrite (andb_comm (isValid q)).
  destruct (isValid p) eqn:Hp; [|done].
  destruct (isValid q) eqn:Hq; [|done]. cbn [andb].
  destruct (slot (shelves s) (row p) (col p)) as [a|] eqn:Ea;
    destruct (slot (shelves s) (row q) (col q)) as [b|] eqn:Eb; try done.
  pose proof (proj1 (wf_spec s) Hwf) as [Hg _].
  f_equal. f_equal.
  apply grid_ext; try (by do 2 apply wfShelves_set_slot).
  intros t Ht.
  rewrite !slot_set_slot by (try apply wfShelves_set_slot; done).
  destruct (decide (t = p)) as [E1|Hnp], (decide (t = q)) as [E2|Hnq];
    try done. subst. congruence.
Qed.

Lemma swapItems_symmetric_witness :
  swapItems p01 p00 twoOnShelf = swapItems p00 p01 twoOnShelf /\
  slot (shelves (snd (swapItems p01 p00 twoOnShelf))) 0 0 = Some item2 /\
  swapItems p214 p00 twoOnShelf = swapItems p00 p214 twoOnShelf.
Proof.
  split; [exact (swapItems_symmetric p00 p01 twoOnShelf eq_refl)|].
  split; [reflexivity|].
  exact (swapItems_symmetric p00 p214 twoOnShelf eq_refl).
Defined.

(** ** What every reachable state satisfies *)

Lemma keysMatch_step o s s' : keysMatch s -> step o s = Some s' -> keysMatch s'.
Proof.
  intros Hkm. destruct o as [p x|d k w|x|p q]; cbn [step].
  - rewrite addItem_eq. destruct (isValid p); [|done].
    destruct (slot (shelves s) (row p) (col p)); [done|]. by intros [= <-].
  - rewrite checkoutItem_eq.
    destruct (scanShelves (shelves s) k (seqZ 0 3)) as [[p it]|] eqn:E; [|done].
    intros [= <-]. destruct (scan_grid_Some _ _ _ _ E) as (_ & _ & Hk & _).
    intros k' info. cbn [checkedOutItems]. unfold emplace.
    destruct (checkedOutItems s !! k) eqn:Ek; [apply Hkm|].
    destruct (decide (k = k')) as [<-|Hne].
    + rewrite lookup_insert_eq. by intros [= <-].
    + rewrite lookup_insert_ne by done. apply Hkm.
  - rewrite checkinItem_eq.
    destruct (checkedOutItems s !! getStringId (getID x)) eqn:E; [|done].
    intros [= <-] k' info. cbn [checkedOutItems].
    destruct (decide (getStringId (getID x) = k')) as [<-|Hne].
    + by rewrite lookup_delete_eq.
    + rewrite lookup_delete_ne by done. apply Hkm.
  - rewrite swapItems_eq. destruct (isValid p && isValid q); [|done].
    destruct (slot (shelves s) (row p) (col p)); [|done].
    destruct (slot (shelves s) (row q) (col q)); [|done]. by intros [= <-].
Qed.

Lemma keysMatch_run ops :
  forall s s', keysMatch s -> run ops s = Some s' -> keysMatch s'.
Proof.
  induction ops as [|o ops IH]; cbn [run]; intros s s' Hkm.
  - by intros [= <-].
  - destruct (step o s) as [s1|] eqn:E; [|done].
    apply IH. by apply (keysMatch_step o s).
Qed.

(** X9: in every state that successful calls reach from a fresh inventory,
    the grid has 3 shelves of 15 compartments, every checkout record
    remembers a valid position and is filed under the id string of the item
    it holds, and [isItemCheckedOut] of an id string answers whether some
    record holds an item with that id. *)
Theorem reachable_state_shape ops s :
  run ops Inventory_new = Some s ->
  length (shelves s) = 3%nat /\
  (forall shelf, shelf ∈ shelves s -> length shelf = 15%nat) /\
  (forall k info, checkedOutItems s !! k = Some info ->
     isValid (originalPosition info) = true /\
     k = getStringId (getID (item info))) /\
  (forall i, isItemCheckedOut (getStringId i) s = (inr (inLedger i s), s)).
Proof.
  intros Hrun.
  pose proof (wf_run ops _ _ wf_new Hrun) as Hwf.
  assert (keysMatch s) as Hkm.
  { apply (keysMatch_run ops Inventory_new); [|done]. by intros k info. }
  apply wf_spec in Hwf as [Hg Hpos]. apply wfShelves_spec in Hg as [Hl Hs].
  split; [done|]. split; [|split].
  - intros shelf Hin. apply list_elem_of_lookup in Hin as [i Hi]. eauto.
  - intros k info Hk. split; [eauto|by apply Hkm].
  - intros i. rewrite isItemCheckedOut_eq. f_equal. f_equal.
    destruct (inLedger i s) eqn:E.
    + apply bool_decide_eq_true.
      apply inLedger_spec in E as (k & info & Hk & Hi).
      rewrite <- Hi, <- (Hkm _ _ Hk). eauto.
    + apply bool_decide_eq_false. intros [info Hk].
      assert (inLedger i s = true) as E'; [|congruence].
      apply inLedger_spec. exists (getStringId i), info. split; [done|].
      apply getStringId_inj. symmetry. by apply Hkm.
Qed.

Lemma reachable_state_shape_witness :
  run [AddItem p00 item7; CheckoutItem "2025-06-04" "7" "Alice"] Inventory_new
    = Some sevenOut /\
  length (shelves sevenOut) = 3%nat /\
  isItemCheckedOut (getStringId 7) sevenOut = (inr true, sevenOut) /\
  isItemCheckedOut (getStringId 8) sevenOut = (inr false, sevenOut).
Proof.
  assert (run [AddItem p00 item7; CheckoutItem "2025-06-04" "7" "Alice"]
            Inventory_new = Some sevenOut) as Hrun by (vm_compute; reflexivity).
  pose proof (reachable_state_shape _ _ Hrun) as (H1 & _ & _ & H4).
  split; [exact Hrun|]. split; [exact H1|]. split.
  - rewrite (H4 7). vm_compute. reflexivity.
  - rewrite (H4 8). vm_compute. reflexivity.
Defined.

(** ** Where identities come from and where they go *)

Lemma held_spec i s :
  wf s = true ->
  held i s = true <-> (exists p, shelfHolds s i p) \/ (exists k, ledgerHolds s i k).
Proof.
  intros Hwf. apply wf_spec in Hwf as [Hg _]. unfold held.
  rewrite orb_true_iff, onShelf_spec, inLedger_spec; done.
Qed.

Lemma shelfHolds_set_slot g m m' p v i q :
  wfShelves g = true -> isValid p = true ->
  shelfHolds (mkInventory (set_slot g (row p) (col p) v) m) i q <->
  (q = p /\ exists a, v = Some a /\ getID a = i) \/
  (q <> p /\ shelfHolds (mkInventory g m') i q).
Proof.
  intros Hg Hp. unfold shelfHolds. cbn [shelves]. split.
  - intros [Hq (a & Ha & Hi)]. rewrite slot_set_slot in Ha by done.
    destruct (decide (q = p)) as [->|Hne]; [left|right]; eauto 6.
  - intros [[-> (a & -> & Hi)]|[Hne [Hq (a & Ha & Hi)]]].
    + split; [done|]. exists a. rewrite slot_set_slot by done.
      by rewrite decide_True.
    + split; [done|]. exists a. rewrite slot_set_slot by done.
      by rewrite decide_False.
Qed.

(** Where an id that is in the system after a call was before it. *)
Lemma held_after_step o s s' i :
  wf s = true -> step o s = Some s' -> held i s' = true ->
  held i s = true \/ exists p x, o = AddItem p x /\ i = getID x.
Proof.
  intros Hwf Hstep Hheld.
  pose proof (wf_step o s s' Hwf Hstep) as Hwf'.
  apply (held_spec i s' Hwf') in Hheld.
  rewrite (held_spec i s Hwf).
  pose proof (proj1 (wf_spec s) Hwf) as [Hg Hpos].
  destruct o as [p x|d k w|x|p q]; cbn [step] in Hstep.
  - rewrite addItem_eq in Hstep. destruct (isValid p) eqn:Hp; [|done].
    destruct (slot (shelves s) (row p) (col p)) eqn:He; [done|].
    injection Hstep as <-. destruct Hheld as [[t Ht]|[k Hk]].
    + apply (shelfHolds_set_slot _ _ (checkedOutItems s)) in Ht; [|done..].
      destruct Ht as [[-> (a & [= <-] & Hi)]|[_ Ht]].
      * right. exists p, x. by split.
      * left. left. exists t. by destruct s.
    + left. right. exists k. exact Hk.
  - rewrite checkoutItem_eq in Hstep.
    destruct (scanShelves (shelves s) k (seqZ 0 3)) as [[p it]|] eqn:E; [|done].
    injection Hstep as <-.
    destruct (scan_grid_Some _ _ _ _ E) as (Hp & Hs & Hk & _).
    left. destruct Hheld as [[t Ht]|[k' Hk']].
    + apply (shelfHolds_set_slot _ _ (checkedOutItems s)) in Ht; [|done..].
      destruct Ht as [[_ (a & [=] & _)]|[_ Ht]]. left. exists t. by destruct s.
    + destruct Hk' as (info & Hinfo & Hi). cbn [checkedOutItems] in Hinfo.
      unfold emplace in Hinfo.
      destruct (checkedOutItems s !! k) eqn:Ek; [right; exists k', info; eauto|].
      destruct (decide (k = k')) as [<-|Hne].
      * rewrite lookup_insert_eq in Hinfo. injection Hinfo as <-.
        left. exists p. split; eauto.
      * rewrite lookup_insert_ne in Hinfo by done. right. exists k', info. eauto.
  - rewrite checkinItem_eq in Hstep.
    destruct (checkedOutItems s !! getStringId (getID x)) as [info|] eqn:E; [|done].
    injection Hstep as <-. left. destruct Hheld as [[t Ht]|[k' Hk']].
    + apply (shelfHolds_set_slot _ _ (checkedOutItems s)) in Ht; [|by eauto..].
      destruct Ht as [[_ (a & [= <-] & Hi)]|[_ Ht]].
      * right. exists (getStringId (getID x)), info. eauto.
      * left. exists t. by destruct s.
    + destruct Hk' as (info' & Hinfo & Hi). cbn [checkedOutItems] in Hinfo.
      apply lookup_delete_Some in Hinfo as [_ Hinfo]. right. exists k', info'. eauto.
  - assert (fst (swapItems p q s) = inr tt) as Hok.
    { destruct (swapItems p q s) as [[e|[]] s1]; [done|done]. }
    destruct (swapItems_inr _ _ _ Hok) as (a & b & Hp & Hq & Ea & Eb & Hsnd).
    destruct (swapItems p q s) as [[e|[]] s1]; [done|].
    cbn [snd] in Hsnd. injection Hstep as <-. subst s1.
    left. destruct Hheld as [[t Ht]|[k' Hk']]; [|right; exists k'; exact Hk'].
    left.
    apply (shelfHolds_set_slot _ _ (checkedOutItems s)) in Ht;
      [|by apply wfShelves_set_slot|done].
    destruct Ht as [[-> (c & [= <-] & Hi)]|[_ Ht]]; [exists p; split; eauto|].
    apply (shelfHolds_set_slot _ _ (checkedOutItems s)) in Ht; [|done..].
    destruct Ht as [[-> (c & [= <-] & Hi)]|[_ Ht]]; [exists q; split; eauto|].
    exists t. by destruct s.
Qed.

(** X10: no call invents an identity: an id that is on a shelf or in a
    checkout record after a run of successful calls was there before the run
    or is the id of an item that one of the [addItem] calls was given. *)
Theorem run_creates_no_identity ops : forall s s' i,
  wf s = true -> run ops s = Some s' -> held i s' = true ->
  held i s = true \/ exists p x, AddItem p x ∈ ops /\ getID x = i.
Proof.
  induction ops as [|o ops IH]; cbn [run]; intros s s' i Hwf.
  - intros [= <-] Hi. by left.
  - destruct (step o s) as [s1|] eqn:E; [|done]. intros Hrun Hi.
    destruct (IH s1 s' i (wf_step o s s1 Hwf E) Hrun Hi)
      as [H1|(p & x & Hin & Hx)].
    + destruct (held_after_step o s s1 i Hwf E H1) as [H|(p & x & -> & ->)].
      * by left.
      * right. exists p, x. split; [apply list_elem_of_here|done].
    + right. exists p, x. split; [by apply list_elem_of_further|done].
Qed.

Lemma run_creates_no_identity_witness :
  exists s',
    run [AddItem p01 item2; SwapItems p01 p01; CheckinItem (dummyItem 7)] sevenOut
      = Some s' /\
    held 2 s' = true /\ held 2 sevenOut = false /\
    exists p x,
      AddItem p x ∈ [AddItem p01 item2; SwapItems p01 p01; CheckinItem (dummyItem 7)]
      /\ getID x = 2.
Proof.
  eexists. split; [vm_compute; reflexivity|].
  match goal with |- held 2 ?s0 = true /\ _ => set (s' := s0) end.
  assert (run [AddItem p01 item2; SwapItems p01 p01; CheckinItem (dummyItem 7)]
            sevenOut = Some s') as Hrun by (vm_compute; reflexivity).
  assert (held 2 s' = true) as Hheld by (vm_compute; reflexivity).
  assert (held 2 sevenOut = false) as Hnot by (vm_compute; reflexivity).
  split; [exact Hheld|]. split; [exact Hnot|].
  destruct (run_creates_no_identity _ sevenOut s' 2 eq_refl Hrun Hheld)
    as [H|H]; [|exact H].
  rewrite Hnot in H. discriminate H.
Defined.

Lemma held_kept_by_step o s s' i :
  wf s = true -> keepsItems o s = true -> step o s = Some s' ->
  held i s = true -> held i s' = true.
Proof.
  intros Hwf Hkeep Hstep Hheld.
  pose proof (wf_step o s s' Hwf Hstep) as Hwf'.
  apply (held_spec i s' Hwf'). apply (held_spec i s Hwf) in Hheld.
  pose proof (proj1 (wf_spec s) Hwf) as [Hg Hpos].
  assert (forall t, shelfHolds s i t ->
            shelfHolds (mkInventory (shelves s) (checkedOutItems s)) i t) as Hsame
    by (intros t Ht; by destruct s).
  destruct o as [p x|d k w|x|p q]; cbn [step keepsItems] in Hstep, Hkeep.
  - rewrite addItem_eq in Hstep. destruct (isValid p) eqn:Hp; [|done].
    destruct (slot (shelves s) (row p) (col p)) eqn:He; [done|].
    injection Hstep as <-. destruct Hheld as [[t Ht]|[k Hk]].
    + left. exists t. apply (shelfHolds_set_slot _ _ (checkedOutItems s)); [done..|].
      right. split; [|by apply Hsame].
      intros ->. destruct Ht as [_ (a & Ha & _)]. congruence.
    + right. exists k. exact Hk.
  - apply bool_decide_eq_true in Hkeep. rewrite checkoutItem_eq in Hstep.
    destruct (scanShelves (shelves s) k (seqZ 0 3)) as [[p it]|] eqn:E; [|done].
    injection Hstep as <-.
    destruct (scan_grid_Some _ _ _ _ E) as (Hp & Hs & Hk & _).
    destruct Hheld as [[t Ht]|[k' (info & Hinfo & Hi)]].
    + destruct (decide (t = p)) as [->|Hne].
      * right. exists k. eexists. cbn [checkedOutItems].
        rewrite emplace_lookup_eq, Hkeep. split; [done|]. cbn [default item].
        destruct Ht as [_ (a & Ha & Hi)]. congruence.
      * left. exists t.
        apply (shelfHolds_set_slot _ _ (checkedOutItems s)); [done..|].
        right. split; [done|by apply Hsame].
    + right. exists k', info. cbn [checkedOutItems]. split; [|done].
      rewrite emplace_lookup_ne; [done|]. intros ->. congruence.
  - rewrite checkinItem_eq in Hstep.
    destruct (checkedOutItems s !! getStringId (getID x)) as [info|] eqn:E; [|done].
    apply bool_decide_eq_true in Hkeep. injection Hstep as <-.
    destruct Hheld as [[t Ht]|[k' (info' & Hinfo & Hi)]].
    + left. exists t.
      apply (shelfHolds_set_slot _ _ (checkedOutItems s)); [by eauto..|].
      right. split; [|by apply Hsame].
      intros ->. destruct Ht as [_ (a & Ha & _)]. congruence.
    + destruct (decide (k' = getStringId (getID x))) as [->|Hne].
      * left. exists (originalPosition info).
        apply (shelfHolds_set_slot _ _ (checkedOutItems s)); [by eauto..|].
        left. split; [done|]. exists (item info). split; [done|]. congruence.
      * right. exists k', info'. cbn [checkedOutItems].
        by rewrite lookup_delete_ne.
  - assert (fst (swapItems p q s) = inr tt) as Hok.
    { destruct (swapItems p q s) as [[e|[]] s1]; [done|done]. }
    destruct (swapItems_inr _ _ _ Hok) as (a & b & Hp & Hq & Ea & Eb & Hsnd).
    destruct (swapItems p q s) as [[e|[]] s1]; [done|].
    cbn [snd] in Hsnd. injection Hstep as <-. subst s1.
    destruct Hheld as [[t Ht]|[k' Hk']]; [|right; exists k'; exact Hk'].
    left. destruct Ht as [Hv (c & Hc & Hi)].
    exists (if decide (t = p) then q else if decide (t = q) then p else t).
    split; [by repeat case_decide|]. exists c. split; [|done]. cbn [shelves].
    rewrite !slot_set_slot
      by (try apply wfShelves_set_slot; try done; by repeat case_decide).
    destruct (decide (t = p)) as [->|Hnp].
    + rewrite decide_True by done. congruence.
    + destruct (decide (t = q)) as [->|Hnq].
      * destruct (decide (p = q)) as [->|Hpq]; [done|].
        rewrite decide_True by done. congruence.
      * by rewrite !decide_False.
Qed.

(** X11: in a run of successful calls where no [checkoutItem] meets a key
    that is already there and no [checkinItem] meets an occupied compartment,
    nothing is lost: every id in the system before the run, and the id of
    every item added during the run, is on a shelf or in a checkout record
    at the end. *)
Theorem guarded_run_keeps_identities ops : forall s s',
  wf s = true -> runKeeping ops s = Some s' ->
  (forall i, held i s = true -> held i s' = true) /\
  (forall p x, AddItem p x ∈ ops -> held (getID x) s' = true).
Proof.
  induction ops as [|o ops IH]; cbn [runKeeping]; intros s s' Hwf.
  - intros [= <-]. split; [done|]. intros p x Hin. by apply elem_of_nil in Hin.
  - destruct (keepsItems o s) eqn:Hk; [|done].
    destruct (step o s) as [s1|] eqn:E; [|done]. intros Hrun.
    pose proof (wf_step o s s1 Hwf E) as Hwf1.
    destruct (IH s1 s' Hwf1 Hrun) as [Hold Hnew]. split.
    + intros i Hi. apply Hold. by apply (held_kept_by_step o s).
    + intros p x Hin. apply elem_of_cons in Hin as [Ho|Hin]; [|by eapply Hnew].
      subst o.
      apply Hold. apply (held_spec _ _ Hwf1). left. exists p.
      cbn [step] in E. rewrite addItem_eq in E.
      destruct (isValid p) eqn:Hp; [|done].
      destruct (slot (shelves s) (row p) (col p)) eqn:He; [done|].
      injection E as <-. split; [done|]. exists (Item_copy x). cbn [shelves].
      pose proof (proj1 (wf_spec s) Hwf) as [Hg _].
      rewrite slot_set_slot by done. by rewrite decide_True.
Qed.

Lemma guarded_run_keeps_identities_witness :
  exists s',
    runKeeping [AddItem p01 item2; CheckinItem (dummyItem 7);
                CheckoutItem "2025-06-09" "2" "Bob"; SwapItems p00 p00]
               sevenOut = Some s' /\
    held 7 s' = true /\ held 2 s' = true /\
    runKeeping [AddItem p00 item2; CheckinItem (dummyItem 7)] sevenOut = None.
Proof.
  eexists. split; [vm_compute; reflexivity|].
  match goal with |- held 7 ?s0 = true /\ _ => set (s' := s0) end.
  assert (runKeeping [AddItem p01 item2; CheckinItem (dummyItem 7);
                      CheckoutItem "2025-06-09" "2" "Bob"; SwapItems p00 p00]
                     sevenOut = Some s') as Hrun by (vm_compute; reflexivity).
  destruct (guarded_run_keeps_identities _ sevenOut s' eq_refl Hrun)
    as [Hold Hnew].
  split; [apply Hold; vm_compute; reflexivity|].
  split; [|vm_compute; reflexivity].
  apply (Hnew p01 item2). apply list_elem_of_here.
Defined.

(** ** checkinItem *)

(** X12: after a successful [checkinItem] the id is no longer checked
    out, and a second [checkinItem] with any item of that id throws "Item is
    not checked out" and changes nothing. *)
Theorem checkinItem_twice_fails x y s :
  fst (checkinItem x s) = inr tt -> getID y = getID x ->
  checkinItem y (snd (checkinItem x s))
  = (inl (runtime_error "Item is not checked out"), snd (checkinItem x s)) /\
  isItemCheckedOut (getStringId (getID x)) (snd (checkinItem x s))
  = (inr false, snd (checkinItem x s)).
Proof.
  intros Hok Hy. rewrite (checkinItem_eq x s) in *.
  destruct (checkedOutItems s !! getStringId (getID x)) as [info|] eqn:E; [|done].
  cbn [snd]. rewrite checkinItem_eq, isItemCheckedOut_eq. cbn [checkedOutItems].
  rewrite Hy, lookup_delete_eq. done.
Qed.

Lemma checkinItem_twice_fails_witness :
  fst (checkinItem (dummyItem 7) sevenOut) = inr tt /\
  fst (checkinItem item7 (snd (checkinItem (dummyItem 7) sevenOut)))
  = inl (runtime_error "Item is not checked out").
Proof.
  assert (fst (checkinItem (dummyItem 7) sevenOut) = inr tt) as Hok by reflexivity.
  split; [exact Hok|].
  rewrite (proj1 (checkinItem_twice_fails (dummyItem 7) item7 sevenOut Hok eq_refl)).
  reflexivity.
Defined.

(** ** operator[] *)

(** X13: [operator[]] throws "Shelf index out of range" for an index below 0
    or above 2 and never changes the state; for the row of a valid position in
    a well-formed state it returns a shelf of 15 compartments whose entry at
    the column is the compartment that [isCompartmentEmpty] tests. *)
Theorem subscript_reads_compartments s :
  (forall shelfIndex, shelfIndex < 0 \/ 3 <= shelfIndex ->
     Inventory_subscript shelfIndex s
     = (inl (out_of_range "Shelf index out of range"), s)) /\
  (forall p, wf s = true -> isValid p = true ->
     exists shelf,
       Inventory_subscript (row p) s = (inr shelf, s) /\
       length shelf = 15%nat /\
       shelf !! Z.to_nat (col p) = Some (slot (shelves s) (row p) (col p)) /\
       isCompartmentEmpty p s
       = (inr (bool_decide (shelf !! Z.to_nat (col p) = Some None)), s)).
Proof.
  split.
  - intros i H. unfold Inventory_subscript.
    by assert ((i <? 0) || (i >=? 3) = true) as -> by lia.
  - intros p Hwf Hp. apply wf_spec in Hwf as [Hg _].
    apply wfShelves_spec in Hg as [Hl Hs].
    pose proof (proj1 (isValid_spec p) Hp) as [Hr Hc].
    destruct (lookup_lt_is_Some_2 (shelves s) (Z.to_nat (row p))) as [sh Hsh];
      [lia|].
    destruct (lookup_lt_is_Some_2 sh (Z.to_nat (col p))) as [c Hcc];
      [rewrite (Hs _ _ Hsh); lia|].
    exists sh. unfold Inventory_subscript.
    assert ((row p <? 0) || (row p >=? 3) = false) as -> by lia.
    unfold bind, get_shelves, ret. rewrite Hsh. cbn [default].
    split; [done|]. split; [eauto|].
    assert (slot (shelves s) (row p) (col p) = c) as Hslot
      by (unfold slot; by rewrite Hsh, Hcc).
    split; [by rewrite Hslot|].
    rewrite isCompartmentEmpty_eq, Hp, Hslot, Hcc. f_equal. f_equal.
    destruct c; symmetry;
      [by apply bool_decide_eq_false|by apply bool_decide_eq_true].
Qed.

Lemma subscript_reads_compartments_witness :
  Inventory_subscript 3 twoOnShelf
    = (inl (out_of_range "Shelf index out of range"), twoOnShelf) /\
  exists shelf,
    Inventory_subscript 0 twoOnShelf = (inr shelf, twoOnShelf) /\
    length shelf = 15%nat /\
    shelf !! 1%nat = Some (Some item2).
Proof.
  split.
  - apply (proj1 (subscript_reads_compartments twoOnShelf)). right. lia.
  - destruct (proj2 (subscript_reads_compartments twoOnShelf) p01 eq_refl eq_refl)
      as (shelf & H1 & H2 & H3 & _).
    exists shelf. split; [exact H1|]. split; [exact H2|exact H3].
Defined.

(** ** The storage report *)

Lemma append_assoc (a b c : string) : (a +:+ b) +:+ c = a +:+ b +:+ c.
Proof.
  induction a as [|x a IH]; [done|].
  change (String x ((a +:+ b) +:+ c) = String x (a +:+ b +:+ c)). by f_equal.
Qed.

Lemma append_nil_r (a : string) : a +:+ "" = a.
Proof.
  induction a as [|x a IH]; [done|].
  change (String x (a +:+ "") = String x a). by f_equal.
Qed.

Lemma storageEntries_app es es' :
  storageEntries (es ++ es') = storageEntries es +:+ storageEntries es'.
Proof.
  induction es as [|e es IH]; [done|].
  change (storageEntries ((e :: es) ++ es'))
    with (storageEntry e +:+ storageEntries (es ++ es')).
  change (storageEntries (e :: es)) with (storageEntry e +:+ storageEntries es).
  by rewrite IH, append_assoc.
Qed.

Lemma printCompartments_eq g i js : forall os found,
  printCompartments g i js os found
  = (os +:+ storageEntries (occupiedIn g i js),
     found || negb (bool_decide (occupiedIn g i js = []))).
Proof.
  induction js as [|j js IH]; intros os found; cbn [printCompartments].
  - unfold occupiedIn. simpl. by rewrite append_nil_r, orb_false_r.
  - unfold occupiedIn. cbn [omap list_omap]. fold (occupiedIn g i js).
    destruct (slot g i j) as [it|] eqn:E; cbn [fmap option_fmap option_map].
    + rewrite IH. cbn [storageEntries foldr]. fold (storageEntries (occupiedIn g i js)).
      unfold storageEntry. cbn [fst snd row col].
      rewrite orb_true_r. f_equal. by rewrite !append_assoc.
    + by rewrite IH.
Qed.

Lemma printShelves_eq g rows : forall os found,
  printShelves g rows os found
  = (os +:+ storageEntries (occupied g rows),
     found || negb (bool_decide (occupied g rows = []))).
Proof.
  induction rows as [|i rows IH]; intros os found; cbn [printShelves].
  - unfold occupied. simpl. by rewrite append_nil_r, orb_false_r.
  - rewrite printCompartments_eq, IH. unfold occupied. cbn [mbind list_bind].
    fold (occupied g rows). rewrite storageEntries_app, append_assoc.
    f_equal. rewrite <- orb_assoc. f_equal.
    destruct (occupiedIn g i (seqZ 0 15)), (occupied g rows); done.
Qed.

Lemma occupied_elem g p it :
  (p, it) ∈ occupied g (seqZ 0 3) <->
  isValid p = true /\ slot g (row p) (col p) = Some it.
Proof.
  unfold occupied, occupiedIn. rewrite list_elem_of_bind. split.
  - intros (i & Hin & Hi). apply list_elem_of_omap in Hin as (j & Hj & Hs).
    destruct (slot g i j) as [it'|] eqn:E; [|done].
    injection Hs as <- <-. apply elem_of_seqZ in Hi, Hj.
    split; [apply isValid_spec; cbn [row col]; lia|done].
  - intros [Hv Hs]. apply isValid_spec in Hv. exists (row p). split.
    + apply list_elem_of_omap. exists (col p).
      split; [apply elem_of_seqZ; lia|]. rewrite Hs. by destruct p.
    + apply elem_of_seqZ. lia.
Qed.

Lemma occupiedIn_sublist g i js :
  (fun e => rowMajor (fst e)) <$> occupiedIn g i js
  `sublist_of` (fun j => 15 * i + j) <$> js.
Proof.
  induction js as [|j js IH]; [done|].
  unfold occupiedIn. cbn [omap list_omap]. fold (occupiedIn g i js).
  destruct (slot g i j); cbn [fmap option_fmap option_map list_fmap].
  - by apply sublist_skip.
  - by apply sublist_cons.
Qed.

Lemma occupied_sublist g :
  (fun e => rowMajor (fst e)) <$> occupied g (seqZ 0 3) `sublist_of` seqZ 0 45.
Proof.
  change (seqZ 0 45) with
    (((fun j => 15 * 0 + j) <$> seqZ 0 15) ++
     ((fun j => 15 * 1 + j) <$> seqZ 0 15) ++
     ((fun j => 15 * 2 + j) <$> seqZ 0 15) ++ [])%list.
  change (occupied g (seqZ 0 3)) with
    (occupiedIn g 0 (seqZ 0 15) ++ occupiedIn g 1 (seqZ 0 15) ++
     occupiedIn g 2 (seqZ 0 15) ++ [])%list.
  rewrite !fmap_app.
  repeat (apply sublist_app; [apply occupiedIn_sublist|]). done.
Qed.

(** X14: the storage report is the heading followed by one entry per
    occupied compartment, each exactly once and in row-major order, with the
    shelf, the compartment and the [Item::print] text of the item; when no
    compartment is occupied it is the heading followed by "No items in
    storage.". *)
Theorem storage_report_lists_occupied_compartments s :
  exists es,
    (forall p it, (p, it) ∈ es <->
                  isValid p = true /\ slot (shelves s) (row p) (col p) = Some it) /\
    (fun e => rowMajor (fst e)) <$> es `sublist_of` seqZ 0 45 /\
    Inventory_shl s
    = "=== Items in Storage ===" +:+ endl +:+
      match es with
      | [] => "No items in storage." +:+ endl
      | _ => storageEntries es
      end.
Proof.
  exists (occupied (shelves s) (seqZ 0 3)).
  split; [intros p it; apply occupied_elem|]. split; [apply occupied_sublist|].
  unfold Inventory_shl. rewrite printShelves_eq. cbn [orb].
  destruct (occupied (shelves s) (seqZ 0 3)) as [|e es] eqn:E.
  - cbn [bool_decide negb storageEntries foldr].
    rewrite bool_decide_eq_true_2 by done. cbn [negb].
    by rewrite !append_assoc.
  - rewrite bool_decide_eq_false_2 by done. cbn [negb].
    by rewrite !append_assoc.
Qed.

#[local] Instance keyLe_trans : Transitive keyLe.
Proof. intros a b c. unfold keyLe. apply transitivity. Qed.

#[local] Instance keyLe_total : Total keyLe.
Proof. intros a b. unfold keyLe. apply total, _. Qed.

(** X15: the check-out report is the heading followed by one entry per
    checkout record, each exactly once, in increasing order of the key
    strings compared character by character; when there is no record it is
    the heading followed by "No items are currently checked out.". *)
Theorem checked_out_report_in_key_order s :
  exists es,
    (forall k info, (k, info) ∈ es <-> checkedOutItems s !! k = Some info) /\
    NoDup (fst <$> es) /\
    StronglySorted (fun a b => String.le (fst a) (fst b)) es /\
    printCheckedOutItems s
    = "=== Checked Out Items ===" +:+ endl +:+
      match es with
      | [] => "No items are currently checked out." +:+ endl
      | _ => checkedOutEntries es
      end.
Proof.
  exists (entriesInKeyOrder (checkedOutItems s)).
  pose proof (merge_sort_Permutation keyLe (map_to_list (checkedOutItems s)))
    as Hperm.
  fold (entriesInKeyOrder (checkedOutItems s)) in Hperm.
  split; [|split; [|split]].
  - intros k info. rewrite Hperm. apply elem_of_map_to_list.
  - rewrite Hperm. apply NoDup_fst_map_to_list.
  - apply (StronglySorted_merge_sort keyLe).
  - unfold printCheckedOutItems. f_equal. f_equal.
    destruct (decide (checkedOutItems s = ∅)) as [E|E].
    + rewrite bool_decide_eq_true_2 by done.
      assert (map_to_list (checkedOutItems s) = []) as E0
        by (rewrite E; apply map_to_list_empty).
      rewrite E0 in Hperm. by apply Permutation_nil_r in Hperm as ->.
    + rewrite bool_decide_eq_false_2 by done.
      destruct (entriesInKeyOrder (checkedOutItems s)) eqn:E'; [|done].
      exfalso. apply E. apply map_to_list_empty_iff.
      symmetry. by apply Permutation_nil_l.
Qed.

(** ** main.cpp *)

Lemma askShelfAgain_Some inputs : forall v shelf rest,
  askShelfAgain inputs v = Some (shelf, rest) ->
  0 <= shelf < 3 /\ suffix rest inputs.
Proof.
  induction inputs as [|w inputs IH]; intros v shelf rest; cbn [askShelfAgain].
  - destruct ((v <? 0) || (v >=? 3)) eqn:E; [done|]. intros [= <- <-].
    split; [lia|done].
  - destruct ((v <? 0) || (v >=? 3)) eqn:E.
    + intros H. destruct (IH _ _ _ H) as [Hr Hs]. split; [done|].
      by apply suffix_cons_r.
    + intros [= <- <-]. split; [lia|done].
Qed.

Lemma askCompartmentAgain_Some inputs : forall v compartment rest,
  askCompartmentAgain inputs v = Some (compartment, rest) ->
  0 <= compartment < 15 /\ suffix rest inputs.
Proof.
  induction inputs as [|w inputs IH]; intros v c rest; cbn [askCompartmentAgain].
  - destruct ((v <? 0) || (v >=? 15)) eqn:E; [done|]. intros [= <- <-].
    split; [lia|done].
  - destruct ((v <? 0) || (v >=? 15)) eqn:E.
    + intros H. destruct (IH _ _ _ H) as [Hr Hs]. split; [done|].
      by apply suffix_cons_r.
    + intros [= <- <-]. split; [lia|done].
Qed.

Lemma getPositionInput_Some inputs p rest :
  getPositionInput inputs = Some (p, rest) ->
  isValid p = true /\ suffix rest inputs.
Proof.
  unfold getPositionInput. destruct inputs as [|v inputs]; [done|].
  destruct (askShelfAgain inputs v) as [[shelf rest1]|] eqn:E1; [|done].
  destruct rest1 as [|v' rest2]; [done|].
  destruct (askCompartmentAgain rest2 v') as [[c rest3]|] eqn:E2; [|done].
  intros [= <- <-].
  destruct (askShelfAgain_Some _ _ _ _ E1) as [Hr Hs1].
  destruct (askCompartmentAgain_Some _ _ _ _ E2) as [Hc Hs2].
  split; [apply isValid_spec; cbn [row col]; lia|].
  apply suffix_cons_r. etrans; [exact Hs2|]. etrans; [|exact Hs1].
  by apply suffix_cons_r.
Qed.

(** X16: a position that [getPositionInput] returns is valid and what is
    left of the input is a suffix of it; a shelf number out of 0..2 is
    skipped, a compartment number out of 0..14 after a good shelf number is
    skipped, and a good shelf number followed by a good compartment number is
    the position returned. *)
Theorem getPositionInput_returns_valid_position inputs :
  (forall p rest, getPositionInput inputs = Some (p, rest) ->
     isValid p = true /\ suffix rest inputs) /\
  (forall v, v < 0 \/ 3 <= v ->
     getPositionInput (v :: inputs) = getPositionInput inputs) /\
  (forall r c, 0 <= r < 3 -> c < 0 \/ 15 <= c ->
     getPositionInput (r :: c :: inputs) = getPositionInput (r :: inputs)) /\
  (forall r c, 0 <= r < 3 -> 0 <= c < 15 ->
     getPositionInput (r :: c :: inputs) = Some (mkPosition r c, inputs)).
Proof.
  split; [|split; [|split]].
  - intros p rest. apply getPositionInput_Some.
  - intros v Hv. unfold getPositionInput at 1. cbn [askShelfAgain].
    assert ((v <? 0) || (v >=? 3) = true) as E by lia.
    destruct inputs as [|w inputs]; cbn [askShelfAgain]; by rewrite E.
  - intros r c Hr Hc. unfold getPositionInput.
    assert ((r <? 0) || (r >=? 3) = false) as Er by lia.
    assert ((c <? 0) || (c >=? 15) = true) as Ec by lia.
    destruct inputs as [|w inputs]; cbn [askShelfAgain askCompartmentAgain];
      rewrite ?Er, ?Ec; cbn [askShelfAgain askCompartmentAgain];
      rewrite ?Er, ?Ec; done.
  - intros r c Hr Hc. unfold getPositionInput.
    assert ((r <? 0) || (r >=? 3) = false) as Er by lia.
    assert ((c <? 0) || (c >=? 15) = false) as Ec by lia.
    destruct inputs as [|w inputs]; cbn [askShelfAgain askCompartmentAgain];
      rewrite ?Er, ?Ec; cbn [askShelfAgain askCompartmentAgain];
      rewrite ?Er, ?Ec; done.
Qed.

Lemma getPositionInput_returns_valid_position_witness :
  getPositionInput [7; -1; 2; 15; 99; 14; 4] = Some (p214, [4]) /\
  isValid p214 = true /\ suffix [4] [7; -1; 2; 15; 99; 14; 4] /\
  getPositionInput [7; -1; 2; 15] = None.
Proof.
  assert (getPositionInput [7; -1; 2; 15; 99; 14; 4] = Some (p214, [4])) as E
    by reflexivity.
  destruct (proj1 (getPositionInput_returns_valid_position
                     [7; -1; 2; 15; 99; 14; 4]) _ _ E) as [H1 H2].
  split; [exact E|]. split; [exact H1|]. split; [exact H2|reflexivity].
Defined.

Lemma menuAdd_inv itm inputs st st' :
  getID itm = snd st -> menuInv st -> menuAdd itm inputs st = Some st' ->
  menuInv st'.
Proof.
  intros Hid (Hown & Hn & Hb). unfold menuAdd.
  destruct (snd st <? INT_MAX) eqn:Hmax; [|done].
  apply Z.ltb_lt in Hmax.
  destruct (getPositionInput inputs) as [[pos rest]|] eqn:Ep; [|done].
  destruct (addItem pos itm (fst st)) as [[e|[]] inv'] eqn:Ea; [done|].
  intros [= <-]. unfold menuInv. cbn [fst snd].
  assert (step (AddItem pos itm) (fst st) = Some inv') as Hstep
    by (cbn [step]; by rewrite Ea).
  assert (held (getID itm) (fst st) = false) as Hfree.
  { destruct (held (getID itm) (fst st)) eqn:E; [|done].
    apply Hb in E. lia. }
  unfold held in Hfree. apply orb_false_iff in Hfree as [Hf1 Hf2].
  split; [|split; [lia|]].
  - apply (ownership_step (AddItem pos itm) (fst st)); [done| |done].
    cbn [freshId]. by rewrite Hf1, Hf2.
  - intros i Hi.
    destruct (held_after_step _ _ _ i (own_wf _ Hown) Hstep Hi)
      as [H|(p & x & [= <- <-] & ->)].
    + apply Hb in H. lia.
    + lia.
Qed.

Lemma menuOther_inv o st inv' :
  freshId o (fst st) = true -> (forall p x, o <> AddItem p x) ->
  menuInv st -> step o (fst st) = Some inv' -> menuInv (inv', snd st).
Proof.
  intros Hfresh Hno (Hown & Hn & Hb) Hstep. unfold menuInv. cbn [fst snd].
  split; [|split; [done|]].
  - by apply (ownership_step o (fst st)).
  - intros i Hi. cbn [fst snd] in *.
    destruct (held_after_step _ _ _ i (own_wf _ Hown) Hstep Hi)
      as [H|(p & x & -> & _)]; [by apply Hb|].
    by destruct (Hno p x).
Qed.

Lemma menuStep_inv c st st' : menuInv st -> menuStep c st = Some st' -> menuInv st'.
Proof.
  intros Hinv. destruct c; cbn [menuStep].
  - by apply menuAdd_inv.
  - by apply menuAdd_inv.
  - by apply menuAdd_inv.
  - destruct (checkoutItem due itemId checkOutBy (fst st)) as [[e|it] inv'] eqn:E;
      [done|]. intros [= <-].
    apply (menuOther_inv (CheckoutItem due itemId checkOutBy)); try done.
    cbn [step]. by rewrite E.
  - destruct (checkinItem (dummyItem id) (fst st)) as [[e|[]] inv'] eqn:E;
      [done|]. intros [= <-].
    apply (menuOther_inv (CheckinItem (dummyItem id))); try done.
    cbn [step]. by rewrite E.
  - destruct (getPositionInput positionInputs1) as [[pos1 r1]|]; [|done].
    destruct (getPositionInput positionInputs2) as [[pos2 r2]|]; [|done].
    destruct (swapItems pos1 pos2 (fst st)) as [[e|[]] inv'] eqn:E; [done|].
    intros [= <-].
    apply (menuOther_inv (SwapItems pos1 pos2)); try done.
    cbn [step]. by rewrite E.
  - by intros [= <-].
  - by intros [= <-].
  - by intros [= <-].
Qed.

Lemma menuRun_inv cs : forall st st',
  menuInv st -> menuRun cs st = Some st' -> menuInv st'.
Proof.
  induction cs as [|c cs IH]; cbn [menuRun]; intros st st' Hinv.
  - by intros [= <-].
  - destruct (menuStep c st) as [st1|] eqn:E; [|done].
    apply IH. by apply (menuStep_inv c st).
Qed.

Lemma menuInv_start : menuInv menuStart.
Proof.
  split; [apply ownership_new|]. split; [by vm_compute|].
  intros i Hi. exfalso.
  apply (held_spec i Inventory_new wf_new) in Hi
    as [[p [_ (a & Ha & _)]]|[k (info & Hk & _)]].
  - by rewrite slot_new in Ha.
  - done.
Qed.

(** X17: after any sequence of menu choices that [main] gets through
    without an exception and without overflowing its [int] counter, starting
    from the fresh inventory and [nextId = 1000], the counter is between 1000
    and [INT_MAX], every id in the system lies between 1000 and [nextId], no
    id is both on a shelf and checked out, and an id is in at most one
    compartment and under at most one key. *)
Theorem menu_keeps_identities_unique cs inv next :
  menuRun cs menuStart = Some (inv, next) ->
  1000 <= next <= INT_MAX /\
  forall i,
    (held i inv = true -> 1000 <= i < next) /\
    onShelf i inv && inLedger i inv = false /\
    (forall p q, shelfHolds inv i p -> shelfHolds inv i q -> p = q) /\
    (forall k k', ledgerHolds inv i k -> ledgerHolds inv i k' -> k = k').
Proof.
  intros Hrun.
  destruct (menuRun_inv cs _ _ menuInv_start Hrun) as ([Hwf Hsh Hkey Hex] & Hn & Hb).
  cbn [fst snd] in *. split; [done|]. intros i.
  pose proof (proj1 (wf_spec inv) Hwf) as [Hg _].
  split; [apply Hb|]. split; [|split].
  - destruct (onShelf i inv) eqn:Hs; [|done].
    destruct (inLedger i inv) eqn:Hl; [|done]. exfalso.
    apply onShelf_spec in Hs as [p Hp]; [|done].
    apply inLedger_spec in Hl as [k Hk]. eauto.
  - eauto.
  - intros k k' Hk Hk'. by rewrite (Hkey _ _ Hk), (Hkey _ _ Hk').
Qed.

Lemma menu_keeps_identities_unique_witness :
  exists inv,
    menuRun [AddBookChoice "Dune" "paperback" "Dune" "Frank Herbert" "1965" [0; 0];
             AddMagazineChoice "Wired" "monthly" "May" "Chips" [5; 0; 20; 1];
             CheckOutChoice "1000" "Alice" "2025-06-04";
             PrintCheckedOutChoice;
             SwapChoice [0; 1] [0; 1];
             CheckInChoice 1000] menuStart = Some (inv, 1002) /\
    held 1000 inv = true /\ held 1001 inv = true /\ held 1002 inv = false /\
    menuStep (AddBookChoice "Dune" "paperback" "Dune" "Frank Herbert" "1965" [0; 0])
             (Inventory_new, INT_MAX) = None /\
    onShelf 1000 inv && inLedger 1000 inv = false.
Proof.
  eexists. split; [vm_compute; reflexivity|].
  match goal with |- held 1000 ?s0 = true /\ _ => set (inv := s0) end.
  assert (menuRun
            [AddBookChoice "Dune" "paperback" "Dune" "Frank Herbert" "1965" [0; 0];
             AddMagazineChoice "Wired" "monthly" "May" "Chips" [5; 0; 20; 1];
             CheckOutChoice "1000" "Alice" "2025-06-04";
             PrintCheckedOutChoice;
             SwapChoice [0; 1] [0; 1];
             CheckInChoice 1000] menuStart = Some (inv, 1002)) as Hrun
    by (vm_compute; reflexivity).
  split; [vm_compute; reflexivity|]. split; [vm_compute; reflexivity|].
  split; [vm_compute; reflexivity|]. split; [vm_compute; reflexivity|].
  exact (proj1 (proj2 (proj2 (menu_keeps_identities_unique _ _ _ Hrun) 1000))).
Defined.
